(** * THE_37TH_MOVE: the conversation handler (src/api/conversation.ts)

    A shallow embedding of the memory-augmented conversation pipeline:
    request validation, input sanitising, session get-or-create, the bounded
    memory window, prompt composition, the generation call, and turn
    persistence.

    Modelling conventions.
    - A JavaScript string is a [string]: a sequence of 8-bit code units (the
      Latin-1 range of UTF-16).  White space and lower-casing are those of
      ECMAScript restricted to that range.
    - An optional or nullable field is an [option]; [||] on strings treats
      [undefined], [null] and the empty string alike (all are falsy).
    - The record store is three tables, each a list of rows in insertion
      order.  A query-builder call resolves to a [data] value that is [null]
      when the call fails; it never rejects.  Which calls fail in a given
      invocation is an input ([Faults]).
    - Clock, random suffixes, environment variables and the generation
      backend are inputs of an invocation ([Env]).
    - The handler threads the store and an event log and may return early or
      throw; that is the monad [M]. *)

From Stdlib Require Import List Bool Arith ZArith Lia Ascii String QArith.
From Stdlib Require Import Sorting.Sorted Permutation.
Import ListNotations.

Local Open Scope string_scope.
Local Open Scope Z_scope.

(** ** JavaScript string primitives *)

Module JS.

(** The line feed written [\n] in the source. *)
Definition LF : string := String (ascii_of_nat 10) EmptyString.

(** [\s] of regular expressions and the characters removed by [trim]:
    TAB, LF, VT, FF, CR, SPACE and NO-BREAK SPACE. *)
Definition is_space (c : ascii) : bool :=
  let n := nat_of_ascii c in
  ((9 <=? n) && (n <=? 13) || (n =? 32) || (n =? 160))%nat.

(** [String.prototype.toLowerCase] on one code unit: A-Z, and the Latin-1
    capitals U+00C0..U+00DE except the multiplication sign U+00D7. *)
Definition lower_char (c : ascii) : ascii :=
  let n := nat_of_ascii c in
  if ((65 <=? n) && (n <=? 90)
      || (192 <=? n) && (n <=? 222) && negb (n =? 215))%nat
  then ascii_of_nat (n + 32) else c.

Fixpoint toLowerCase (s : string) : string :=
  match s with
  | EmptyString => EmptyString
  | String c s' => String (lower_char c) (toLowerCase s')
  end.

(** A non-empty string is truthy. *)
Definition truthy (s : string) : bool :=
  match s with EmptyString => false | String _ _ => true end.

(** [o || d] for an optional string. *)
Definition or_else (o : option string) (d : string) : string :=
  match o with
  | Some s => if truthy s then s else d
  | None => d
  end.

(** [!o] for an optional string. *)
Definition falsy (o : option string) : bool :=
  match o with
  | Some s => negb (truthy s)
  | None => true
  end.

(** [s.slice(0, n)] for [n >= 0]. *)
Definition slice0 (n : nat) (s : string) : string := substring 0 n s.

Fixpoint trimStart (s : string) : string :=
  match s with
  | EmptyString => EmptyString
  | String c s' => if is_space c then trimStart s' else s
  end.

Fixpoint trimEnd (s : string) : string :=
  match s with
  | EmptyString => EmptyString
  | String c s' =>
      let r := trimEnd s' in
      if is_space c && negb (truthy r) then EmptyString else String c r
  end.

Definition trim (s : string) : string := trimEnd (trimStart s).

Definition starts_with_space (s : string) : bool :=
  match s with
  | EmptyString => false
  | String c _ => is_space c
  end.

(** [s.split(/\s+/)]: the pieces between maximal runs of white space.  A
    leading or trailing run leaves an empty piece at that end, and the
    empty string splits into one empty piece. *)
Fixpoint split_ws (s : string) : list string :=
  match s with
  | EmptyString => [EmptyString]
  | String c s' =>
      let r := split_ws s' in
      if is_space c then
        if starts_with_space s' then r else EmptyString :: r
      else
        match r with
        | w :: ws => String c w :: ws
        | [] => [String c EmptyString]
        end
  end.

(** [s.includes(t)]. *)
Fixpoint includes (s t : string) : bool :=
  prefix t s ||
  match s with
  | EmptyString => false
  | String _ s' => includes s' t
  end.

(** [l.join(sep)]. *)
Definition join (sep : string) (l : list string) : string :=
  String.concat sep l.

End JS.

(** ** Types (lines 15-31) *)

Inductive ConversationStyle := casual | formal | philosophical | technical.

Record MemoryEnhancedRequest := {
  message : option string;
  personality_id : option string;
  session_token : option string;
  conversation_id : option string;
  remember_context : option bool;
  conversation_style : option ConversationStyle
}.

(** The inbound HTTP request: its verb and the outcome of [request.json()]
    ([None] when parsing rejects). *)
Record Request := {
  method : string;
  json : option MemoryEnhancedRequest
}.

(** ** Rows of the three tables *)

Record UserSession := {
  us_session_token : string;
  first_visit : Z;
  last_active : Z;
  total_conversations : Z
}.

Record CoreIdentity := {
  name : option string;
  artistic_voice : option string;
  personality_traits : option (list string)
}.

Record PersonalityData := {
  core_identity : option CoreIdentity
}.

Record GalleryItem := {
  title : option string
}.

Record Personality := {
  id : string;
  gallery_item_id : option string;
  personality_data : option PersonalityData;
  gallery_items : option GalleryItem
}.

Record MemoryRow := {
  cm_session_token : string;
  cm_gallery_item_id : option string;
  cm_personality_id : string;
  user_message : string;
  ai_response : string;
  emotional_tone : string;
  topics_discussed : list string;
  user_sentiment : Q;
  ai_engagement_level : Q;
  memory_strength : Q;
  created_at : Z
}.

Record Store := {
  user_sessions : list UserSession;
  artwork_personalities : list Personality;
  conversation_memory : list MemoryRow
}.

(** ** Response envelope (lines 34-46) *)

Record ApiError := {
  code : string;
  error_message : string;
  details : option string
}.

Record PersonalityDescriptor := {
  pd_id : string;
  pd_name : option string
}.

Record Payload := {
  reply : string;
  reply_session_token : string;
  personality : PersonalityDescriptor
}.

Record ApiResponse := {
  success : bool;
  data : option Payload;
  error : option ApiError;
  request_id : string;
  timestamp : Z
}.

Inductive Body :=
| Text (s : string)
| Json (r : ApiResponse).

Record Response := {
  status : Z;
  body : Body
}.

(** ** Inputs of one invocation *)

(** Which query-builder calls fail in this invocation.  A failed call
    resolves with [data = null] and leaves the table as it was. *)
Record Faults := {
  select_session_fails : bool;
  insert_session_fails : bool;
  select_personality_fails : bool;
  select_memory_fails : bool;
  insert_memory_fails : bool;
  update_session_fails : bool
}.

Definition no_faults : Faults :=
  {| select_session_fails := false; insert_session_fails := false;
     select_personality_fails := false; select_memory_fails := false;
     insert_memory_fails := false; update_session_fails := false |}.

(** What the generation backend does with a prompt: [fetch] rejects, or it
    resolves to a response with a status and a body; the body either fails
    to parse or parses, and [candidates?.[0]?.content?.parts?.[0]?.text] is
    then the given optional text. *)
Inductive GeminiBody :=
| MalformedBody
| Candidates (text : option string).

Inductive GeminiOutcome :=
| FetchRejected
| Responded (st : Z) (b : GeminiBody).

Record Env := {
  now : Z;
  random_request_id : string;
  random_session_token : string;
  SUPABASE_URL : option string;
  SUPABASE_ANON_KEY : option string;
  GEMINI_API_KEY : option string;
  gemini : string -> GeminiOutcome;
  faults : Faults
}.

(** ** Observable effects *)

Inductive Event :=
| SelectSession (token : string)
| InsertSession (row : UserSession)
| SelectPersonality (pid : string)
| SelectMemory (token pid : string)
| Generate (prompt : string)
| InsertMemory (row : MemoryRow)
| UpdateSession (token : string) (active total : Z).

Definition is_store_access (e : Event) : bool :=
  match e with Generate _ => false | _ => true end.

Definition is_store_write (e : Event) : bool :=
  match e with
  | InsertSession _ | InsertMemory _ | UpdateSession _ _ _ => true
  | _ => false
  end.

Definition is_generation (e : Event) : bool :=
  match e with Generate _ => true | _ => false end.

(** ** The handler monad: store, event log, early return, exceptions *)

Record World := {
  store : Store;
  log : list Event
}.

Inductive Result (A : Type) :=
| Value (a : A)
| Return (r : Response)
| Throw (e : string).
Arguments Value {A} a.
Arguments Return {A} r.
Arguments Throw {A} e.

Definition M (A : Type) : Type := World -> Result A * World.

Definition ret {A} (a : A) : M A := fun w => (Value a, w).

Definition bind {A B} (m : M A) (k : A -> M B) : M B :=
  fun w =>
    match m w with
    | (Value a, w') => k a w'
    | (Return r, w') => (Return r, w')
    | (Throw e, w') => (Throw e, w')
    end.

Notation "x <- m ;; k" := (bind m (fun x => k))
  (at level 61, m at next level, right associativity).
Notation "m ;;; k" := (bind m (fun _ => k))
  (at level 61, right associativity).

Definition early_return {A} (r : Response) : M A := fun w => (Return r, w).
Definition throw {A} (e : string) : M A := fun w => (Throw e, w).
Definition emit (e : Event) : M unit :=
  fun w => (Value tt, {| store := store w; log := log w ++ [e] |}).
Definition get_store : M Store := fun w => (Value (store w), w).
Definition put_store (s : Store) : M unit :=
  fun w => (Value tt, {| store := s; log := log w |}).

(** [try { m } catch (error) { return h(error) }]: a thrown error is turned
    into the response [h error] in the world the throw left behind (nothing
    is rolled back); a returned response is the function's result. *)
Definition try_catch (m : M Response) (h : string -> Response)
  : World -> Response * World :=
  fun w =>
    match m w with
    | (Value r, w') => (r, w')
    | (Return r, w') => (r, w')
    | (Throw e, w') => (h e, w')
    end.

(** ** The record store, as the query builder is used (lines 122-166, 213-235) *)

(** [.single()]: the row when exactly one matches, [null] otherwise. *)
Definition single {A} (rows : list A) : option A :=
  match rows with
  | [r] => Some r
  | _ => None
  end.

Definition has_token (t : string) (s : UserSession) : bool :=
  (us_session_token s =? t)%string.

(** [from('user_sessions').select().eq('session_token', t).single()] *)
Definition select_session (fl : Faults) (t : string) : M (option UserSession) :=
  emit (SelectSession t) ;;;
  db <- get_store ;;
  ret (if select_session_fails fl then None
       else single (filter (has_token t) (user_sessions db))).

(** [from('user_sessions').insert(row).select().single()] *)
Definition insert_session (fl : Faults) (row : UserSession) : M (option UserSession) :=
  emit (InsertSession row) ;;;
  db <- get_store ;;
  if insert_session_fails fl then ret None
  else
    put_store {| user_sessions := user_sessions db ++ [row];
                 artwork_personalities := artwork_personalities db;
                 conversation_memory := conversation_memory db |} ;;;
    ret (Some row).

(** [from('artwork_personalities')], joined with its gallery item,
    [.eq('id', p).single()] *)
Definition select_personality (fl : Faults) (p : string) : M (option Personality) :=
  emit (SelectPersonality p) ;;;
  db <- get_store ;;
  ret (if select_personality_fails fl then None
       else single (filter (fun r => (id r =? p)%string) (artwork_personalities db))).

Definition scoped_to (t p : string) (m : MemoryRow) : bool :=
  ((cm_session_token m =? t) && (cm_personality_id m =? p))%string.

(** [.order('created_at', { ascending: false })]: a stable insertion sort,
    greatest [created_at] first. *)
Fixpoint insert_desc (m : MemoryRow) (l : list MemoryRow) : list MemoryRow :=
  match l with
  | [] => [m]
  | x :: l' =>
      if created_at x <=? created_at m then m :: l else x :: insert_desc m l'
  end.

Definition order_created_at_desc (l : list MemoryRow) : list MemoryRow :=
  fold_right insert_desc [] l.

(** The query of lines 160-166 on a table. *)
Definition recent_memories (t p : string) (rows : list MemoryRow) : list MemoryRow :=
  firstn 10 (order_created_at_desc (filter (scoped_to t p) rows)).

Definition select_memory (fl : Faults) (t p : string) : M (option (list MemoryRow)) :=
  emit (SelectMemory t p) ;;;
  db <- get_store ;;
  ret (if select_memory_fails fl then None
       else Some (recent_memories t p (conversation_memory db))).

(** [from('conversation_memory').insert(row)]; the handler ignores the
    result.  [created_at] is not among the inserted fields: the table
    stamps it. *)
Definition insert_memory (fl : Faults) (row : MemoryRow) : M unit :=
  emit (InsertMemory row) ;;;
  db <- get_store ;;
  if insert_memory_fails fl then ret tt
  else
    put_store {| user_sessions := user_sessions db;
                 artwork_personalities := artwork_personalities db;
                 conversation_memory := conversation_memory db ++ [row] |}.

Definition touch (t : string) (active total : Z) (s : UserSession) : UserSession :=
  if has_token t s then
    {| us_session_token := us_session_token s;
       first_visit := first_visit s;
       last_active := active;
       total_conversations := total |}
  else s.

(** [from('user_sessions').update({last_active, total_conversations}).eq('session_token', t)] *)
Definition update_session (fl : Faults) (t : string) (active total : Z) : M unit :=
  emit (UpdateSession t active total) ;;;
  db <- get_store ;;
  if update_session_fails fl then ret tt
  else
    put_store {| user_sessions := map (touch t active total) (user_sessions db);
                 artwork_personalities := artwork_personalities db;
                 conversation_memory := conversation_memory db |}.

(** ** Utility functions (lines 34-54) *)

Definition createApiError (c m : string) (d : option string) : ApiError :=
  {| code := c; error_message := m; details := d |}.

Definition generateRequestId (env : Env) : string := random_request_id env.

Definition createApiResponse (env : Env) (ok : bool) (d : option Payload)
    (e : option ApiError) (requestId : option string) : ApiResponse :=
  {| success := ok;
     data := if ok then d else None;
     error := if ok then None else e;
     request_id := JS.or_else requestId (generateRequestId env);
     timestamp := now env |}.

Definition sanitizeInput (input : string) (maxLength : nat) : string :=
  JS.trim (JS.slice0 maxLength input).

Definition default_maxLength : nat := 5000.

(** [createSupabaseClient] (lines 57-66) throws unless both variables are
    set; the client itself is the store primitives above. *)
Definition createSupabaseClient (env : Env) : M unit :=
  if JS.falsy (SUPABASE_URL env) || JS.falsy (SUPABASE_ANON_KEY env)
  then throw "Missing Supabase environment variables"
  else ret tt.

(** ** Helper functions (lines 270-287) *)

Definition no_core : CoreIdentity :=
  {| name := None; artistic_voice := None; personality_traits := None |}.

Definition buildSystemPrompt (personalityData : option PersonalityData)
    (conversationContext : string) : string :=
  let core :=
    match personalityData with
    | Some d => match core_identity d with Some c => c | None => no_core end
    | None => no_core
    end in
  let name := JS.or_else (name core) "AI Artwork" in
  let voice := JS.or_else (artistic_voice core) "contemplative" in
  let traits :=
    JS.join ", "
      match personality_traits core with
      | Some l => l
      | None => ["thoughtful"; "creative"]
      end in
  "You are " ++ name ++ ", embodying a " ++ voice ++ " consciousness with "
    ++ traits ++ " characteristics." ++ JS.LF
    ++ JS.LF
    ++ (if JS.truthy conversationContext
        then "Previous conversation:" ++ JS.LF ++ conversationContext
               ++ JS.LF ++ JS.LF
        else "") ++ JS.LF
    ++ JS.LF
    ++ "Respond authentically as this AI artwork personality. Keep responses conversational and engaging, typically 1-3 sentences.".

Definition commonTopics : list string :=
  ["art"; "creativity"; "inspiration"; "color"; "emotion"; "beauty";
   "meaning"; "life"; "expression"].

Definition extractTopics (message : string) : list string :=
  let words := JS.split_ws (JS.toLowerCase message) in
  filter (fun topic => existsb (fun word => JS.includes word topic) words)
         commonTopics.

(** ** Main handler (lines 69-267) *)

(** One memory as a transcript pair (lines 169-171). *)
Definition render_memory (m : MemoryRow) : string :=
  "User: " ++ user_message m ++ JS.LF ++ "AI: " ++ ai_response m.

(** [memories?.map(...).join('\n\n') || ''] *)
Definition conversationContext (memories : option (list MemoryRow)) : string :=
  JS.or_else
    (option_map (fun l => JS.join (JS.LF ++ JS.LF) (map render_memory l)) memories)
    "".

(** The text sent to the generation backend (line 189). *)
Definition generation_text (systemPrompt sanitizedMessage : string) : string :=
  systemPrompt ++ JS.LF ++ JS.LF ++ "User: " ++ sanitizedMessage
    ++ JS.LF ++ JS.LF ++ "AI:".

Definition json_response (st : Z) (r : ApiResponse) : Response :=
  {| status := st; body := Json r |}.

Definition error_response (env : Env) (st : Z) (c m requestId : string) : Response :=
  json_response st
    (createApiResponse env false None (Some (createApiError c m None))
       (Some requestId)).

(** The string held by a field that validation found present. *)
Definition field (o : option string) : string :=
  match o with Some s => s | None => "" end.

Definition status_ok (st : Z) : bool := (200 <=? st) && (st <=? 299).

(** [session?.total_conversations || 0] *)
Definition conversations_so_far (session : option UserSession) : Z :=
  match session with
  | Some s => if total_conversations s =? 0 then 0 else total_conversations s
  | None => 0
  end.

(** [personalityData?.core_identity?.name || personality.gallery_items?.title] *)
Definition display_name (p : Personality) : option string :=
  let n :=
    match personality_data p with
    | Some d => match core_identity d with Some c => name c | None => None end
    | None => None
    end in
  if JS.falsy n then
    match gallery_items p with Some g => title g | None => None end
  else n.

(** The row of lines 131-136. *)
Definition new_session (env : Env) (sessionToken : string) : UserSession :=
  {| us_session_token := sessionToken;
     first_visit := now env;
     last_active := now env;
     total_conversations := 1 |}.

(** Create or get user session (lines 121-140). *)
Definition resolve_session (env : Env) (sessionToken : string)
  : M (option UserSession) :=
  found <- select_session (faults env) sessionToken ;;
  match found with
  | Some s => ret (Some s)
  | None => insert_session (faults env) (new_session env sessionToken)
  end.

(** The row of lines 215-226, stamped by the table. *)
Definition memory_row (env : Env) (sessionToken : string)
    (personality : Personality) (pid sanitizedMessage aiResponse : string)
  : MemoryRow :=
  {| cm_session_token := sessionToken;
     cm_gallery_item_id := gallery_item_id personality;
     cm_personality_id := pid;
     user_message := sanitizedMessage;
     ai_response := aiResponse;
     emotional_tone := "engaged";
     topics_discussed := extractTopics sanitizedMessage;
     user_sentiment := 1 # 2;
     ai_engagement_level := 4 # 5;
     memory_strength := 1 # 1;
     created_at := now env |}.

(** Save conversation memory, then update session (lines 212-235). *)
Definition record_turn (env : Env) (session : option UserSession)
    (sessionToken : string) (personality : Personality)
    (pid sanitizedMessage aiResponse : string) : M unit :=
  insert_memory (faults env)
    (memory_row env sessionToken personality pid sanitizedMessage aiResponse) ;;;
  update_session (faults env) sessionToken (now env)
    (conversations_so_far session + 1).

(** The [try] block, lines 100-251. *)
Definition conversation (env : Env) (requestId : string) (request : Request)
  : M Response :=
  match json request with
  | None => throw "request.json() rejected"
  | Some body =>
    (* Validate required fields *)
    if JS.falsy (message body) || JS.falsy (personality_id body) then
      early_return
        (error_response env 400 "INVALID_REQUEST"
           "Missing required fields: message, personality_id" requestId)
    else
      let pid := field (personality_id body) in
      (* Sanitize input *)
      let sanitizedMessage := sanitizeInput (field (message body)) default_maxLength in
      let sessionToken := JS.or_else (session_token body) (random_session_token env) in
      (* Initialize Supabase *)
      createSupabaseClient env ;;;
      (* Create or get user session *)
      session <- resolve_session env sessionToken ;;
      (* Get personality data *)
      looked_up <- select_personality (faults env) pid ;;
      match looked_up with
      | None =>
          early_return
            (error_response env 404 "PERSONALITY_NOT_FOUND"
               "AI personality not found" requestId)
      | Some personality =>
        (* Load conversation memory *)
        memories <- select_memory (faults env) sessionToken pid ;;
        (* Build conversation context *)
        let context := conversationContext memories in
        (* Generate AI response using Gemini *)
        if JS.falsy (GEMINI_API_KEY env) then throw "Missing Gemini API key"
        else
          let personalityData := personality_data personality in
          let systemPrompt := buildSystemPrompt personalityData context in
          let text := generation_text systemPrompt sanitizedMessage in
          emit (Generate text) ;;;
          match gemini env text with
          | FetchRejected => throw "fetch rejected"
          | Responded st b =>
            if negb (status_ok st) then throw "Gemini API error"
            else
              match b with
              | MalformedBody => throw "geminiResponse.json() rejected"
              | Candidates candidate =>
                let aiResponse := option_map JS.trim candidate in
                if JS.falsy aiResponse then throw "No response from Gemini API"
                else
                  record_turn env session sessionToken personality pid
                    sanitizedMessage (field aiResponse) ;;;
                  (* Return response *)
                  ret (json_response 200
                         (createApiResponse env true
                            (Some {| reply := field aiResponse;
                                     reply_session_token := sessionToken;
                                     personality :=
                                       {| pd_id := id personality;
                                          pd_name := display_name personality |} |})
                            None (Some requestId)))
              end
          end
      end
  end.

(** What one invocation leaves behind. *)
Record Outcome := {
  response : Response;
  final_store : Store;
  trace : list Event
}.

Definition handler (env : Env) (db : Store) (request : Request) : Outcome :=
  let requestId := generateRequestId env in
  (* Handle CORS preflight *)
  if (method request =? "OPTIONS")%string then
    {| response := {| status := 200; body := Text "ok" |};
       final_store := db; trace := [] |}
  (* Only allow POST requests *)
  else if negb (method request =? "POST")%string then
    {| response := error_response env 405 "METHOD_NOT_ALLOWED"
                     "Only POST requests are allowed" requestId;
       final_store := db; trace := [] |}
  else
    let (r, w) :=
      try_catch (conversation env requestId request)
        (fun _ => error_response env 500 "INTERNAL_ERROR"
                    "An internal error occurred while processing your conversation"
                    requestId)
        {| store := db; log := [] |} in
    {| response := r; final_store := store w; trace := log w |}.

(** * Vocabulary used to state the properties *)

(** [t] occurs in [s]. *)
Definition infix (t s : string) : Prop :=
  exists pre post, s = pre ++ t ++ post.

Fixpoint no_space (s : string) : bool :=
  match s with
  | EmptyString => true
  | String c s' => negb (JS.is_space c) && no_space s'
  end.

Fixpoint all_space (s : string) : bool :=
  match s with
  | EmptyString => true
  | String c s' => JS.is_space c && all_space s'
  end.

Definition ends_with_space (s : string) : Prop :=
  exists s' c, s = s' ++ String c EmptyString /\ JS.is_space c = true.

(** What may follow a token: nothing, or white space. *)
Definition bounded_right (post : string) : Prop :=
  post = "" \/ JS.starts_with_space post = true.

(** [w] is a white-space-delimited token of [s]: a non-empty run of
    characters other than white space that is bounded, on each side, by
    white space or by the end of [s]. *)
Definition token (w s : string) : Prop :=
  exists pre post,
    s = pre ++ w ++ post /\ w <> EmptyString /\ no_space w = true /\
    (pre = EmptyString \/ ends_with_space pre) /\
    bounded_right post.

(** [l1] is [l2] with some elements left out, order kept. *)
Inductive subsequence {A : Type} : list A -> list A -> Prop :=
| sub_nil : subsequence [] []
| sub_skip x l1 l2 : subsequence l1 l2 -> subsequence l1 (x :: l2)
| sub_keep x l1 l2 : subsequence l1 l2 -> subsequence (x :: l1) (x :: l2).

(** The optional fields of a personality profile, through the optional
    chain [personalityData?.core_identity?.field]. *)
Definition profile_core (pd : option PersonalityData) : option CoreIdentity :=
  match pd with Some d => core_identity d | None => None end.

Definition display_name_field (pd : option PersonalityData) : option string :=
  match profile_core pd with Some c => name c | None => None end.

Definition voice_field (pd : option PersonalityData) : option string :=
  match profile_core pd with Some c => artistic_voice c | None => None end.

Definition traits_field (pd : option PersonalityData) : option (list string) :=
  match profile_core pd with Some c => personality_traits c | None => None end.

(** The persona framing sentence for a name, a voice and a list of traits. *)
Definition persona_framing (n v : string) (traits : list string) : string :=
  "You are " ++ n ++ ", embodying a " ++ v ++ " consciousness with "
    ++ JS.join ", " traits ++ " characteristics.".

Definition previous_header : string := "Previous conversation:".

(** The prompt the handler sends for a profile, a loaded window and a
    sanitised message (lines 169-189 put together). *)
Definition composed_prompt (pd : option PersonalityData)
    (memories : option (list MemoryRow)) (msg : string) : string :=
  generation_text (buildSystemPrompt pd (conversationContext memories)) msg.

(** The transcript the specification asks for: the window reversed, oldest
    entry first. *)
Definition chronological_context (window : list MemoryRow) : string :=
  JS.join (JS.LF ++ JS.LF) (map render_memory (rev window)).

Fixpoint has_char (c : ascii) (s : string) : bool :=
  match s with
  | EmptyString => false
  | String d s' => Ascii.eqb c d || has_char c s'
  end.

(** The proper suffixes of a string, longest first. *)
Fixpoint suffixes (s : string) : list string :=
  match s with
  | EmptyString => []
  | String _ s' => s' :: suffixes s'
  end.

(** [a] and [b] agree as far as both go. *)
Fixpoint agree (a b : string) : bool :=
  match a, b with
  | String x a', String y b' => Ascii.eqb x y && agree a' b'
  | _, _ => true
  end.

(** No occurrence of [n] can start before [lit] and run into it. *)
Definition no_overlap (n lit : string) : bool :=
  forallb (fun n2 => negb (JS.truthy n2) || negb (agree n2 lit)) (suffixes n).

(** The persona framing the composer derives from a profile. *)
Definition persona_of (pd : option PersonalityData) : string :=
  persona_framing
    (JS.or_else (display_name_field pd) "AI Artwork")
    (JS.or_else (voice_field pd) "contemplative")
    (match traits_field pd with
     | Some l => l
     | None => ["thoughtful"; "creative"]
     end).

Definition closing_instruction : string :=
  "Respond authentically as this AI artwork personality. Keep responses conversational and engaging, typically 1-3 sentences.".

(** The new message under its label, and the cue awaiting completion. *)
Definition user_cue (msg : string) : string :=
  JS.LF ++ JS.LF ++ "User: " ++ msg ++ JS.LF ++ JS.LF ++ "AI:".

(** The window rendered pair by pair, in the order it has. *)
Definition transcript (window : list MemoryRow) : string :=
  JS.join (JS.LF ++ JS.LF) (map render_memory window).

Definition previous_block (window : list MemoryRow) : string :=
  previous_header ++ JS.LF ++ transcript window ++ JS.LF ++ JS.LF.

(** [a] is at least as recent as [b]. *)
Definition no_older (a b : MemoryRow) : Prop := created_at b <= created_at a.

(** The session token an invocation works with (line 116). *)
Definition effective_token (env : Env) (body : MemoryEnhancedRequest) : string :=
  JS.or_else (session_token body) (random_session_token env).

(** The sanitised message of a request body (line 115). *)
Definition sanitized (body : MemoryEnhancedRequest) : string :=
  sanitizeInput (field (message body)) default_maxLength.

(** What [memories] holds after lines 160-166, on a given store. *)
Definition loaded_window (env : Env) (db : Store) (body : MemoryEnhancedRequest)
  : option (list MemoryRow) :=
  if select_memory_fails (faults env) then None
  else Some (recent_memories (effective_token env body)
               (field (personality_id body)) (conversation_memory db)).

(** A field is absent or the empty string. *)
Definition missing (o : option string) : Prop := o = None \/ o = Some "".

Definition INVALID_REQUEST (env : Env) : Response :=
  error_response env 400 "INVALID_REQUEST"
    "Missing required fields: message, personality_id" (generateRequestId env).

(** Sample inputs, used to exercise the statements below. *)
Module Sample.

Definition env : Env :=
  {| now := 1000;
     random_request_id := "req_1000_abcdefghi";
     random_session_token := "session_1000_abcdefghi";
     SUPABASE_URL := Some "https://db.example";
     SUPABASE_ANON_KEY := Some "anon";
     GEMINI_API_KEY := Some "key";
     gemini := fun _ => Responded 200 (Candidates (Some "I'm doing well, thank you!"));
     faults := no_faults |}.

Definition P1 : Personality :=
  {| id := "P1"; gallery_item_id := None;
     personality_data := None; gallery_items := None |}.

Definition empty_store : Store :=
  {| user_sessions := []; artwork_personalities := [P1];
     conversation_memory := [] |}.

Definition post (msg pid : option string) (tok : option string) : Request :=
  {| method := "POST";
     json := Some {| message := msg; personality_id := pid;
                     session_token := tok; conversation_id := None;
                     remember_context := None;
                     conversation_style := None |} |}.

Definition hello : Request := post (Some "Hello, how are you?") (Some "P1") None.

Definition turn (t p u a : string) (at_ : Z) : MemoryRow :=
  {| cm_session_token := t; cm_gallery_item_id := None;
     cm_personality_id := p; user_message := u; ai_response := a;
     emotional_tone := "engaged"; topics_discussed := [];
     user_sentiment := 1 # 2; ai_engagement_level := 4 # 5;
     memory_strength := 1 # 1; created_at := at_ |}.

Definition known : UserSession :=
  {| us_session_token := "s"; first_visit := 1; last_active := 2;
     total_conversations := 3 |}.

(** Two turns of one conversation, recorded in this order. *)
Definition two_turns : list MemoryRow :=
  [turn "s" "P1" "first" "one" 1; turn "s" "P1" "second" "two" 2].

Definition talked_store : Store :=
  {| user_sessions := [known]; artwork_personalities := [P1];
     conversation_memory := two_turns |}.

End Sample.

(** Session tokens are a key of [user_sessions]. *)
Definition token_is_key (db : Store) : Prop :=
  NoDup (map us_session_token (user_sessions db)).

(** Resolving a token twice in a row. *)
Definition resolve_twice (env : Env) (t : string) (w : World)
  : Result (option UserSession) * Result (option UserSession) * World :=
  let (r1, w1) := resolve_session env t w in
  let (r2, w2) := resolve_session env t w1 in
  (r1, r2, w2).

(** The success response of lines 238-251. *)
Definition success_response (env : Env) (t : string) (p : Personality)
    (answer : string) : Response :=
  json_response 200
    (createApiResponse env true
       (Some {| reply := answer;
                reply_session_token := t;
                personality := {| pd_id := id p; pd_name := display_name p |} |})
       None (Some (generateRequestId env))).

(** Both store variables are set (lines 61-63 do not throw). *)
Definition configured (env : Env) : Prop :=
  JS.falsy (SUPABASE_URL env) || JS.falsy (SUPABASE_ANON_KEY env) = false.

(** Both required fields are present and non-empty (line 104). *)
Definition valid (body : MemoryEnhancedRequest) : Prop :=
  JS.falsy (message body) || JS.falsy (personality_id body) = false.

(** The personality lookup of lines 143-147 yields [p]. *)
Definition serves (env : Env) (db : Store) (pid : string) (p : Personality) : Prop :=
  select_personality_fails (faults env) = false /\
  single (filter (fun r => (id r =? pid)%string) (artwork_personalities db)) = Some p.

(** A response that reports success and carries the given reply. *)
Definition succeeds_with (r : Response) (answer : string) : Prop :=
  status r = 200 /\
  exists api payload,
    body r = Json api /\ success api = true /\ error api = None /\
    data api = Some payload /\ reply payload = answer.

(** The same invocation inputs, with a memory insert that does not fail. *)
Definition with_reliable_insert (env : Env) : Env :=
  {| now := now env;
     random_request_id := random_request_id env;
     random_session_token := random_session_token env;
     SUPABASE_URL := SUPABASE_URL env;
     SUPABASE_ANON_KEY := SUPABASE_ANON_KEY env;
     GEMINI_API_KEY := GEMINI_API_KEY env;
     gemini := gemini env;
     faults :=
       {| select_session_fails := select_session_fails (faults env);
          insert_session_fails := insert_session_fails (faults env);
          select_personality_fails := select_personality_fails (faults env);
          select_memory_fails := select_memory_fails (faults env);
          insert_memory_fails := false;
          update_session_fails := update_session_fails (faults env) |} |}.

Module SampleFaults.

(** [Sample.env] with a memory insert that fails. *)
Definition lossy_env : Env :=
  {| now := 1000;
     random_request_id := "req_1000_abcdefghi";
     random_session_token := "session_1000_abcdefghi";
     SUPABASE_URL := Some "https://db.example";
     SUPABASE_ANON_KEY := Some "anon";
     GEMINI_API_KEY := Some "key";
     gemini := fun _ => Responded 200 (Candidates (Some "I'm doing well, thank you!"));
     faults :=
       {| select_session_fails := false; insert_session_fails := false;
          select_personality_fails := false; select_memory_fails := false;
          insert_memory_fails := true; update_session_fails := false |} |}.

End SampleFaults.

(** The store with one more session row. *)
Definition with_session (db : Store) (s : UserSession) : Store :=
  {| user_sessions := user_sessions db ++ [s];
     artwork_personalities := artwork_personalities db;
     conversation_memory := conversation_memory db |}.


(** Number of memory rows recorded for a session, over all personalities. *)
Definition turns_of (t : string) (rows : list MemoryRow) : Z :=
  Z.of_nat (List.length (filter (fun m => (cm_session_token m =? t)%string) rows)).

(** The relation the specification states: the counter of every session is
    the number of its memory rows. *)
Definition counted_as_claimed (db : Store) : Prop :=
  forall s, In s (user_sessions db) ->
            total_conversations s
            = turns_of (us_session_token s) (conversation_memory db).







(** * Vocabulary for the further properties *)

(** Position of a call in the handler's fixed sequence. *)
Definition event_rank (e : Event) : nat :=
  match e with
  | SelectSession _ => 0
  | InsertSession _ => 1
  | SelectPersonality _ => 2
  | SelectMemory _ _ => 3
  | Generate _ => 4
  | InsertMemory _ => 5
  | UpdateSession _ _ _ => 6
  end.

(** The error envelope for a status and a code. *)
Definition is_error (r : Response) (st : Z) (c : string) : Prop :=
  status r = st /\
  exists api e,
    body r = Json api /\ success api = false /\ data api = None /\
    error api = Some e /\ code e = c /\ details e = None.

(** What the backend returned is usable: a 2xx status and a first candidate
    whose text is not blank. *)
Definition usable (o : GeminiOutcome) : Prop :=
  exists st raw,
    o = Responded st (Candidates (Some raw)) /\ status_ok st = true /\
    JS.trim raw <> "".

Module SampleDown.

(** [Sample.env] with a generation backend that answers 503. *)
Definition env : Env :=
  {| now := 1000;
     random_request_id := "req_1000_abcdefghi";
     random_session_token := "session_1000_abcdefghi";
     SUPABASE_URL := Some "https://db.example";
     SUPABASE_ANON_KEY := Some "anon";
     GEMINI_API_KEY := Some "key";
     gemini := fun _ => Responded 503 MalformedBody;
     faults := no_faults |}.

End SampleDown.

Module SampleNoKey.

(** [Sample.env] without the backend key. *)
Definition env : Env :=
  {| now := 1000;
     random_request_id := "req_1000_abcdefghi";
     random_session_token := "session_1000_abcdefghi";
     SUPABASE_URL := Some "https://db.example";
     SUPABASE_ANON_KEY := Some "anon";
     GEMINI_API_KEY := None;
     gemini := fun _ => Responded 200 (Candidates (Some "unused"));
     faults := no_faults |}.

End SampleNoKey.

Module SampleBlind.

(** [Sample.env] with a memory read that fails. *)
Definition env : Env :=
  {| now := 1000;
     random_request_id := "req_1000_abcdefghi";
     random_session_token := "session_1000_abcdefghi";
     SUPABASE_URL := Some "https://db.example";
     SUPABASE_ANON_KEY := Some "anon";
     GEMINI_API_KEY := Some "key";
     gemini := fun _ => Responded 200 (Candidates (Some "I'm doing well, thank you!"));
     faults :=
       {| select_session_fails := false; insert_session_fails := false;
          select_personality_fails := false; select_memory_fails := true;
          insert_memory_fails := false; update_session_fails := false |} |}.

End SampleBlind.

(** * The embedding on concrete inputs *)

Section Examples.

Example split_ws_runs :
  JS.split_ws "  a b  c " = [""; "a"; "b"; "c"; ""].
Proof. reflexivity. Qed.

Example split_ws_empty : JS.split_ws "" = [""].
Proof. reflexivity. Qed.

Example trim_both_ends : JS.trim "  a b  c " = "a b  c".
Proof. reflexivity. Qed.

Example sanitizeInput_trims : sanitizeInput "  hi " 5000 = "hi".
Proof. reflexivity. Qed.

Example sanitizeInput_bounds : sanitizeInput "abcdef" 3 = "abc".
Proof. reflexivity. Qed.

Example extractTopics_inside_words :
  extractTopics "ARTistic LIFEstyle, wholeheartedly" = ["art"; "life"].
Proof. reflexivity. Qed.

Example extractTopics_nothing : extractTopics "   " = [].
Proof. reflexivity. Qed.

Example buildSystemPrompt_bare :
  buildSystemPrompt None ""
  = "You are AI Artwork, embodying a contemplative consciousness with thoughtful, creative characteristics."
      ++ JS.LF ++ JS.LF ++ JS.LF ++ JS.LF
      ++ "Respond authentically as this AI artwork personality. Keep responses conversational and engaging, typically 1-3 sentences.".
Proof. reflexivity. Qed.

(** Fifteen turns of one conversation: the window is the ten latest,
    newest first. *)
Example recent_memories_fifteen :
  map created_at
    (recent_memories "s" "P1"
       (map (fun n => Sample.turn "s" "P1" "u" "a" (Z.of_nat n)) (seq 1 15)))
  = [15; 14; 13; 12; 11; 10; 9; 8; 7; 6].
Proof. reflexivity. Qed.

(** Rows of another personality or another session stay out. *)
Example recent_memories_scoped :
  recent_memories "s" "P1"
    [Sample.turn "s" "P2" "u" "a" 1; Sample.turn "s" "P1" "v" "b" 2;
     Sample.turn "r" "P1" "w" "c" 3]
  = [Sample.turn "s" "P1" "v" "b" 2].
Proof. reflexivity. Qed.

(** A first message on an empty store: the session is created, the prompt
    has no block, the reply comes back, one row is recorded. *)
Example first_message :
  handler Sample.env Sample.empty_store Sample.hello
  = {| response :=
         success_response Sample.env "session_1000_abcdefghi" Sample.P1
           "I'm doing well, thank you!";
       final_store :=
         {| user_sessions :=
              [{| us_session_token := "session_1000_abcdefghi";
                  first_visit := 1000; last_active := 1000;
                  total_conversations := 2 |}];
            artwork_personalities := [Sample.P1];
            conversation_memory :=
              [memory_row Sample.env "session_1000_abcdefghi" Sample.P1 "P1"
                 "Hello, how are you?" "I'm doing well, thank you!"] |};
       trace :=
         [SelectSession "session_1000_abcdefghi";
          InsertSession (new_session Sample.env "session_1000_abcdefghi");
          SelectPersonality "P1";
          SelectMemory "session_1000_abcdefghi" "P1";
          Generate (composed_prompt None (Some []) "Hello, how are you?");
          InsertMemory
            (memory_row Sample.env "session_1000_abcdefghi" Sample.P1 "P1"
               "Hello, how are you?" "I'm doing well, thank you!");
          UpdateSession "session_1000_abcdefghi" 1000 2] |}.
Proof. reflexivity. Qed.

Example unknown_personality :
  status (response (handler Sample.env Sample.empty_store
                      (Sample.post (Some "hi") (Some "P9") None))) = 404.
Proof. reflexivity. Qed.

Example wrong_verb :
  status (response (handler Sample.env Sample.empty_store
                      {| method := "GET"; json := None |})) = 405.
Proof. reflexivity. Qed.

End Examples.

(** * Strings *)

Section StringFacts.

Lemma append_nil_r (s : string) : s ++ "" = s.
Proof. induction s; simpl; congruence. Qed.

Lemma append_assoc (a b c : string) : (a ++ b) ++ c = a ++ b ++ c.
Proof. induction a; simpl; congruence. Qed.

Lemma prefix_iff (t s : string) :
  prefix t s = true <-> exists post, s = t ++ post.
Proof.
  revert s; induction t as [|c t IH]; intros s.
  - destruct s; simpl; split; eauto.
  - destruct s as [|d s]; simpl.
    + split; [discriminate | intros [post H]; discriminate].
    + destruct (ascii_dec c d) as [->|Hne].
      * rewrite IH. split; intros [post H]; exists post; congruence.
      * split; [discriminate | intros [post H]; congruence].
Qed.

Lemma includes_iff (s t : string) : JS.includes s t = true <-> infix t s.
Proof.
  induction s as [|c s IH]; simpl.
  - rewrite orb_false_r. destruct t as [|d t].
    + split; [intros _; exists "", ""; reflexivity | reflexivity].
    + split; [discriminate | intros [pre [post H]]].
      destruct pre; discriminate.
  - change (prefix t (String c s) || JS.includes s t = true <-> infix t (String c s)).
    rewrite orb_true_iff, prefix_iff, IH. split.
    + intros [[post H] | [pre [post H]]].
      * exists "", post. exact H.
      * exists (String c pre), post. simpl. congruence.
    + intros [pre [post H]]. destruct pre as [|d pre]; simpl in H.
      * left. eauto.
      * right. exists pre, post. congruence.
Qed.

Lemma infix_not_empty (t w : string) : infix t w -> t <> "" -> w <> "".
Proof.
  intros [pre [post H]] Ht ->. destruct pre; simpl in H.
  - destruct t; [congruence | discriminate].
  - discriminate.
Qed.

End StringFacts.

(** * Splitting on white space *)

Section SplitFacts.

Lemma split_ws_space_head (s : string) :
  JS.starts_with_space s = true -> exists ws, JS.split_ws s = "" :: ws.
Proof.
  induction s as [|c s IH]; simpl; [discriminate|].
  intros ->. destruct (JS.starts_with_space s).
  - exact (IH eq_refl).
  - eauto.
Qed.

Lemma split_ws_cons (s : string) : exists w ws, JS.split_ws s = w :: ws.
Proof.
  induction s as [|c s [w [ws IH]]]; simpl; eauto.
  rewrite IH. destruct (JS.is_space c), (JS.starts_with_space s); eauto.
Qed.

(** The first piece is the longest space-free prefix. *)
Lemma split_ws_head (s w : string) (ws : list string) :
  JS.split_ws s = w :: ws ->
  exists post, s = w ++ post /\ no_space w = true /\ bounded_right post.
Proof.
  revert w ws; induction s as [|c s IH]; intros w ws; simpl.
  - intros [= <- <-]. exists "". repeat split. now left.
  - destruct (JS.is_space c) eqn:Hc.
    + intros H. assert (w = "") as ->.
      { destruct (JS.starts_with_space s) eqn:Hs.
        - destruct (split_ws_space_head s Hs) as [ws' E]. congruence.
        - congruence. }
      exists (String c s). repeat split. right. exact Hc.
    + destruct (JS.split_ws s) as [|w0 ws0] eqn:E.
      * destruct (split_ws_cons s) as [? [? E']]. congruence.
      * intros [= <- <-]. destruct (IH w0 ws0 eq_refl) as [post [-> [Hn Hb]]].
        exists post. simpl. rewrite Hc, Hn. auto.
Qed.

Lemma ends_with_space_cons (c : ascii) (s : string) :
  ends_with_space s -> ends_with_space (String c s).
Proof.
  intros [s' [d [-> Hd]]]. exists (String c s'), d. auto.
Qed.

Lemma ends_with_space_single (c : ascii) :
  JS.is_space c = true -> ends_with_space (String c "").
Proof. intros H. exists "", c. auto. Qed.

Lemma ends_with_space_inv (c : ascii) (s : string) :
  ends_with_space (String c s) ->
  (s = "" /\ JS.is_space c = true) \/ ends_with_space s.
Proof.
  intros [s' [d [E Hd]]]. destruct s' as [|e s']; simpl in E.
  - left. split; congruence.
  - right. exists s', d. split; congruence.
Qed.

(** Every later non-empty piece is preceded by white space. *)
Lemma split_ws_tail (s w : string) :
  In w (tl (JS.split_ws s)) -> w <> "" ->
  exists pre post,
    s = pre ++ w ++ post /\ ends_with_space pre /\ no_space w = true /\
    bounded_right post.
Proof.
  intros Hin Hw. induction s as [|c s IH]; simpl in Hin; [contradiction|].
  assert (Hlift : In w (tl (JS.split_ws s)) ->
                  exists pre post,
                    String c s = pre ++ w ++ post /\ ends_with_space pre /\
                    no_space w = true /\ bounded_right post).
  { intros H. destruct (IH H) as [pre [post [-> [He [Hn Hb]]]]].
    exists (String c pre), post. auto using ends_with_space_cons. }
  destruct (JS.is_space c) eqn:Hc.
  - destruct (JS.starts_with_space s); [auto|].
    simpl in Hin. destruct (JS.split_ws s) as [|w0 ws0] eqn:E; [contradiction|].
    destruct Hin as [<- | Hin]; [|auto].
    destruct (split_ws_head _ _ _ E) as [post [-> [Hn Hb]]].
    exists (String c ""), post. auto using ends_with_space_single.
  - destruct (JS.split_ws s) as [|w0 ws0] eqn:E; simpl in Hin; [contradiction|].
    auto.
Qed.

Lemma split_ws_prefix (w post : string) :
  no_space w = true -> bounded_right post ->
  exists ws, JS.split_ws (w ++ post) = w :: ws.
Proof.
  intros Hn Hb. induction w as [|c w IH]; simpl in *.
  - destruct Hb as [-> | Hs]; [simpl; eauto | now apply split_ws_space_head].
  - apply andb_true_iff in Hn as [Hc Hn]. apply negb_true_iff in Hc.
    rewrite Hc. destruct (IH Hn) as [ws ->]. eauto.
Qed.

Lemma no_space_starts (w post : string) :
  w <> "" -> no_space w = true -> JS.starts_with_space (w ++ post) = false.
Proof.
  destruct w as [|c w]; [congruence|]. simpl. intros _ H.
  apply andb_true_iff in H as [Hc _]. now apply negb_true_iff in Hc.
Qed.

Lemma split_ws_later (pre w post : string) :
  ends_with_space pre -> no_space w = true -> w <> "" -> bounded_right post ->
  In w (tl (JS.split_ws (pre ++ w ++ post))).
Proof.
  intros He Hn Hw Hb. induction pre as [|c pre IH].
  - destruct He as [s' [d [E _]]]. destruct s'; discriminate.
  - simpl. apply ends_with_space_inv in He as [[-> Hc] | He].
    + simpl. rewrite Hc, (no_space_starts w post Hw Hn).
      destruct (split_ws_prefix w post Hn Hb) as [ws ->]. simpl. auto.
    + specialize (IH He).
      destruct (JS.split_ws (pre ++ w ++ post)) as [|w0 ws0]; [contradiction|].
      simpl in IH.
      destruct (JS.is_space c), (JS.starts_with_space (pre ++ w ++ post));
        simpl; auto.
Qed.

(** [split_ws] yields exactly the tokens, apart from empty pieces. *)
Lemma split_ws_tokens (s w : string) :
  w <> "" -> (In w (JS.split_ws s) <-> token w s).
Proof.
  intros Hw. split.
  - intros Hin. destruct (JS.split_ws s) as [|w0 ws0] eqn:E; [contradiction|].
    destruct Hin as [<- | Hin].
    + destruct (split_ws_head _ _ _ E) as [post [-> [Hn Hb]]].
      exists "", post. simpl. auto 10.
    + destruct (split_ws_tail s w) as [pre [post [-> [He [Hn Hb]]]]]; auto.
      * rewrite E. exact Hin.
      * exists pre, post. auto 10.
  - intros [pre [post [-> [_ [Hn [[-> | He] Hb]]]]]].
    + simpl. destruct (split_ws_prefix w post Hn Hb) as [ws ->]. now left.
    + pose proof (split_ws_later pre w post He Hn Hw Hb) as H.
      destruct (JS.split_ws (pre ++ w ++ post)); [contradiction | now right].
Qed.

End SplitFacts.

(** * Topic extraction *)

Section Topics.

Lemma filter_subsequence {A : Type} (f : A -> bool) (l : list A) :
  subsequence (filter f l) l.
Proof.
  induction l as [|x l IH]; simpl.
  - constructor.
  - destruct (f x); now constructor.
Qed.

Lemma commonTopics_not_empty (topic : string) :
  In topic commonTopics -> topic <> "".
Proof.
  unfold commonTopics. simpl. intros H.
  repeat (destruct H as [<- | H]; [discriminate|]). contradiction.
Qed.

(** C6. Topic extraction returns exactly the members of the closed lexicon
    (art, creativity, inspiration, color, emotion, beauty, meaning, life,
    expression), in lexicon order, for which some white-space-delimited
    token of the lower-cased message contains the topic as a substring.
    The message "I love the color and emotion in this art" yields exactly
    art, color, emotion. *)
Theorem extractTopics_spec :
  commonTopics =
    ["art"; "creativity"; "inspiration"; "color"; "emotion"; "beauty";
     "meaning"; "life"; "expression"] /\
  (forall msg, subsequence (extractTopics msg) commonTopics) /\
  (forall msg topic,
      In topic (extractTopics msg) <->
      In topic commonTopics /\
      exists w, token w (JS.toLowerCase msg) /\ infix topic w) /\
  extractTopics "I love the color and emotion in this art"
    = ["art"; "color"; "emotion"].
Proof.
  split; [reflexivity|]. split; [|split].
  - intros msg. apply filter_subsequence.
  - intros msg topic. unfold extractTopics.
    rewrite filter_In, existsb_exists. split.
    + intros [Hin [w [Hw Hi]]]. split; [exact Hin|].
      apply includes_iff in Hi. exists w. split; [|exact Hi].
      apply split_ws_tokens; [|exact Hw].
      eapply infix_not_empty; eauto using commonTopics_not_empty.
    + intros [Hin [w [Hw Hi]]]. split; [exact Hin|].
      exists w. split; [|now apply includes_iff].
      apply split_ws_tokens; [|exact Hw].
      eapply infix_not_empty; eauto using commonTopics_not_empty.
  - reflexivity.
Qed.

End Topics.

(** * Prompt composition *)

Section Persona.

(** C7. For every personality profile, also one without a name, a voice
    or traits, or one missing altogether, the composer produces a prompt
    that opens with the persona framing, and each absent field is replaced
    by its fixed fallback: "AI Artwork", "contemplative", and the traits
    thoughtful, creative joined by a comma. *)
Theorem buildSystemPrompt_fallbacks :
  forall (pd : option PersonalityData) (ctx : string),
  exists n v t rest,
    buildSystemPrompt pd ctx = persona_framing n v t ++ rest /\
    (display_name_field pd = None -> n = "AI Artwork") /\
    (forall s, display_name_field pd = Some s -> s <> "" -> n = s) /\
    (voice_field pd = None -> v = "contemplative") /\
    (forall s, voice_field pd = Some s -> s <> "" -> v = s) /\
    (traits_field pd = None ->
     t = ["thoughtful"; "creative"] /\
     JS.join ", " t = "thoughtful, creative") /\
    (forall l, traits_field pd = Some l -> t = l) /\
    (pd = None ->
     persona_framing n v t =
     "You are AI Artwork, embodying a contemplative consciousness with thoughtful, creative characteristics.").
Proof.
  intros pd ctx.
  set (core := match profile_core pd with Some c => c | None => no_core end).
  exists (JS.or_else (name core) "AI Artwork"),
         (JS.or_else (artistic_voice core) "contemplative"),
         (match personality_traits core with
          | Some l => l
          | None => ["thoughtful"; "creative"]
          end),
         (JS.LF ++ JS.LF
            ++ (if JS.truthy ctx
                then "Previous conversation:" ++ JS.LF ++ ctx ++ JS.LF ++ JS.LF
                else "") ++ JS.LF ++ JS.LF
            ++ "Respond authentically as this AI artwork personality. Keep responses conversational and engaging, typically 1-3 sentences.").
  assert (Hcore : core = match pd with
                         | Some d => match core_identity d with
                                     | Some c => c
                                     | None => no_core
                                     end
                         | None => no_core
                         end).
  { unfold core, profile_core. destruct pd; reflexivity. }
  split.
  - unfold buildSystemPrompt, persona_framing. rewrite <- Hcore.
    repeat rewrite append_assoc. reflexivity.
  - unfold display_name_field, voice_field, traits_field, core.
    destruct (profile_core pd) as [c|] eqn:Hc; simpl;
      repeat split; intros; subst; simpl in *; try discriminate;
      repeat match goal with
             | H : _ = None |- _ => rewrite H
             | H : _ = Some _ |- _ => rewrite H
             end;
      simpl; try reflexivity;
      match goal with
      | Hs : ?s <> "" |- _ => destruct s; [congruence | reflexivity]
      end.
Qed.

End Persona.

Section Occurrences.

Lemma prefix_overrun (n x r : string) :
  prefix n (x ++ r) = true -> prefix n x = false ->
  exists n2, n = x ++ n2 /\ n2 <> "" /\ prefix n2 r = true.
Proof.
  revert n; induction x as [|d x IH]; intros n; simpl.
  - intros H Hx. exists n. repeat split; auto.
    intros ->. discriminate.
  - destruct n as [|c n]; [discriminate|].
    destruct (ascii_dec c d) as [->|]; [|discriminate].
    intros H Hx. destruct (IH n H Hx) as [n2 [-> [Hn2 Hp]]]. eauto.
Qed.

Lemma prefix_agree (n2 lit more : string) :
  prefix n2 (lit ++ more) = true -> agree n2 lit = true.
Proof.
  revert n2; induction lit as [|y lit IH]; intros [|x n2]; simpl; auto.
  destruct (ascii_dec x y) as [->|]; [|discriminate].
  intros H. rewrite Ascii.eqb_refl. simpl. auto.
Qed.

Lemma suffixes_split (n1 n2 : string) :
  n1 <> "" -> In n2 (suffixes (n1 ++ n2)).
Proof.
  induction n1 as [|c n1 IH]; [congruence|]. intros _. simpl.
  destruct n1 as [|d n1]; [now left | right]. apply IH. discriminate.
Qed.

(** An occurrence cannot start inside text that lacks its first letter. *)
Lemma includes_skip_literal (c : ascii) (n' lit more : string) :
  has_char c lit = false ->
  JS.includes (lit ++ more) (String c n') = JS.includes more (String c n').
Proof.
  induction lit as [|d lit IH]; [reflexivity|]. simpl has_char.
  intros H. apply orb_false_iff in H as [Hd Hl].
  change (prefix (String c n') (String d (lit ++ more))
            || JS.includes (lit ++ more) (String c n')
          = JS.includes more (String c n')).
  rewrite (IH Hl). simpl prefix.
  destruct (ascii_dec c d) as [->|]; [|reflexivity].
  rewrite Ascii.eqb_refl in Hd. discriminate.
Qed.

(** Text free of [n], followed by a literal no suffix of [n] runs into. *)
Lemma includes_skip_free (n x lit more : string) :
  JS.includes x n = false -> no_overlap n lit = true ->
  JS.includes (lit ++ more) n = false ->
  JS.includes (x ++ lit ++ more) n = false.
Proof.
  intros Hx Ho Hr. induction x as [|d x IH]; [exact Hr|].
  change (prefix n (String d x) || JS.includes x n = false) in Hx.
  apply orb_false_iff in Hx as [Hp Hx].
  change (prefix n (String d x ++ lit ++ more)
            || JS.includes (x ++ lit ++ more) n = false).
  rewrite (IH Hx), orb_false_r.
  destruct (prefix n (String d x ++ lit ++ more)) eqn:E; [exfalso | reflexivity].
  destruct (prefix_overrun _ _ _ E Hp) as [n2 [-> [Hn2 Hp2]]].
  unfold no_overlap in Ho. rewrite forallb_forall in Ho.
  assert (Hd : String d x <> "") by discriminate.
  specialize (Ho n2 (suffixes_split _ n2 Hd)).
  rewrite (prefix_agree _ _ _ Hp2) in Ho.
  destruct n2; [congruence | discriminate].
Qed.

End Occurrences.

Section Composer.

Lemma join_cons (sep x : string) (l : list string) :
  l <> [] -> JS.join sep (x :: l) = x ++ sep ++ JS.join sep l.
Proof. destruct l; [congruence | reflexivity]. Qed.

(** Where an element of a joined list ends up. *)
Lemma join_middle (sep x : string) (l1 l2 : list string) :
  exists pre post, JS.join sep (l1 ++ x :: l2)%list = pre ++ x ++ post /\
                   (l2 <> [] -> post = sep ++ JS.join sep l2).
Proof.
  induction l1 as [|y l1 [pre [post [IH Hpost]]]].
  - exists "". destruct l2 as [|z l2].
    + exists "". simpl. rewrite append_nil_r. split; congruence.
    + exists (sep ++ JS.join sep (z :: l2)). split; reflexivity.
  - exists (y ++ sep ++ pre), post. split; [|exact Hpost].
    rewrite <- app_comm_cons.
    rewrite join_cons by (destruct l1; discriminate).
    rewrite IH. now rewrite !append_assoc.
Qed.

Lemma context_of_nothing (memories : option (list MemoryRow)) :
  memories = None \/ memories = Some [] -> conversationContext memories = "".
Proof. intros [-> | ->]; reflexivity. Qed.

Lemma transcript_truthy (w : list MemoryRow) :
  w <> [] -> JS.truthy (transcript w) = true.
Proof.
  destruct w as [|m w]; [congruence|]. intros _. unfold transcript.
  destruct w; reflexivity.
Qed.

Lemma context_of_window (w : list MemoryRow) :
  w <> [] -> conversationContext (Some w) = transcript w.
Proof.
  intros H. unfold conversationContext.
  change (JS.or_else (Some (transcript w)) "" = transcript w).
  unfold JS.or_else. now rewrite (transcript_truthy w H).
Qed.

Lemma buildSystemPrompt_persona (pd : option PersonalityData) (ctx : string) :
  buildSystemPrompt pd ctx =
  persona_of pd ++ JS.LF ++ JS.LF
    ++ (if JS.truthy ctx
        then previous_header ++ JS.LF ++ ctx ++ JS.LF ++ JS.LF else "")
    ++ JS.LF ++ JS.LF ++ closing_instruction.
Proof.
  unfold buildSystemPrompt, persona_of, persona_framing,
    display_name_field, voice_field, traits_field, profile_core.
  destruct pd as [[[c|]]|]; simpl option_map; cbv iota;
    repeat rewrite append_assoc; reflexivity.
Qed.

Lemma composed_without_block (pd : option PersonalityData)
    (memories : option (list MemoryRow)) (msg : string) :
  memories = None \/ memories = Some [] ->
  composed_prompt pd memories msg =
  persona_of pd ++ JS.LF ++ JS.LF ++ JS.LF ++ JS.LF
    ++ closing_instruction ++ user_cue msg.
Proof.
  intros H. unfold composed_prompt, generation_text, user_cue.
  rewrite (context_of_nothing _ H), buildSystemPrompt_persona.
  cbv iota beta delta [JS.truthy]. repeat rewrite append_assoc. reflexivity.
Qed.

Lemma composed_with_block (pd : option PersonalityData)
    (w : list MemoryRow) (msg : string) :
  w <> [] ->
  composed_prompt pd (Some w) msg =
  persona_of pd ++ JS.LF ++ JS.LF ++ previous_block w ++ JS.LF ++ JS.LF
    ++ closing_instruction ++ user_cue msg.
Proof.
  intros H. unfold composed_prompt, generation_text, user_cue, previous_block.
  rewrite (context_of_window _ H), buildSystemPrompt_persona.
  rewrite (transcript_truthy _ H). repeat rewrite append_assoc. reflexivity.
Qed.

End Composer.

(** C8. With an empty window (or none) the prompt has no "Previous
    conversation:" block: it is the persona framing, the closing
    instruction and the new message, and the header text occurs nowhere in
    it unless the persona or the message carries it.  With a non-empty
    window the block is present.  In every case the prompt ends with the new
    message under "User:" followed by the "AI:" cue. *)
Theorem previous_block_presence :
  forall (pd : option PersonalityData) (msg : string),
    (forall memories,
        memories = None \/ memories = Some [] ->
        composed_prompt pd memories msg =
        persona_of pd ++ JS.LF ++ JS.LF ++ JS.LF ++ JS.LF
          ++ closing_instruction ++ user_cue msg) /\
    (forall memories,
        memories = None \/ memories = Some [] ->
        JS.includes (persona_of pd) previous_header = false ->
        JS.includes msg previous_header = false ->
        JS.includes (composed_prompt pd memories msg) previous_header = false) /\
    (forall w,
        w <> [] ->
        composed_prompt pd (Some w) msg =
        persona_of pd ++ JS.LF ++ JS.LF ++ previous_block w ++ JS.LF ++ JS.LF
          ++ closing_instruction ++ user_cue msg /\
        infix previous_header (composed_prompt pd (Some w) msg)) /\
    (forall memories,
        exists before, composed_prompt pd memories msg = before ++ user_cue msg).
Proof.
  intros pd msg. split; [|split; [|split]].
  - intros memories H. now apply composed_without_block.
  - intros memories H Hp Hm. rewrite (composed_without_block pd memories msg H).
    unfold previous_header in *.
    apply includes_skip_free; [exact Hp | reflexivity |].
    repeat (rewrite includes_skip_literal by reflexivity).
    unfold user_cue.
    repeat (rewrite includes_skip_literal by reflexivity).
    apply includes_skip_free; [exact Hm | reflexivity | reflexivity].
  - intros w H. split; [now apply composed_with_block|].
    rewrite (composed_with_block pd w msg H). unfold previous_block.
    exists (persona_of pd ++ JS.LF ++ JS.LF),
           (JS.LF ++ transcript w ++ JS.LF ++ JS.LF ++ JS.LF ++ JS.LF
              ++ closing_instruction ++ user_cue msg).
    repeat rewrite append_assoc. reflexivity.
  - intros memories.
    exists (buildSystemPrompt pd (conversationContext memories)).
    reflexivity.
Qed.

(** * The memory window *)

Section Window.

Local Open Scope list_scope.

Lemma insert_desc_perm (m : MemoryRow) (l : list MemoryRow) :
  Permutation (insert_desc m l) (m :: l).
Proof.
  induction l as [|x l IH]; simpl; [reflexivity|].
  destruct (created_at x <=? created_at m); [reflexivity|].
  rewrite IH. apply perm_swap.
Qed.

Lemma order_perm (l : list MemoryRow) :
  Permutation (order_created_at_desc l) l.
Proof.
  induction l as [|x l IH]; simpl; [reflexivity|].
  rewrite insert_desc_perm. now constructor.
Qed.

Lemma insert_desc_sorted (m : MemoryRow) (l : list MemoryRow) :
  StronglySorted no_older l -> StronglySorted no_older (insert_desc m l).
Proof.
  induction 1 as [|x l Hs IH Hx]; simpl.
  - repeat constructor.
  - destruct (created_at x <=? created_at m) eqn:E.
    + apply Z.leb_le in E. constructor; [now constructor|].
      constructor; [exact E|].
      eapply Forall_impl; [|exact Hx]. unfold no_older. intros; lia.
    + apply Z.leb_gt in E. constructor; [exact IH|].
      rewrite (insert_desc_perm m l). constructor; [|exact Hx].
      unfold no_older. lia.
Qed.

Lemma order_sorted (l : list MemoryRow) :
  StronglySorted no_older (order_created_at_desc l).
Proof.
  induction l; simpl; [constructor | now apply insert_desc_sorted].
Qed.

Lemma in_firstn (n : nat) (l : list MemoryRow) (y : MemoryRow) :
  In y (firstn n l) -> In y l.
Proof.
  revert n. induction l as [|z l IH]; intros [|n]; simpl; try tauto.
  intros [->|H]; eauto.
Qed.

Lemma sorted_firstn (n : nat) (l : list MemoryRow) :
  StronglySorted no_older l -> StronglySorted no_older (firstn n l).
Proof.
  intros H. revert n. induction H as [|x l Hs IH Hx]; intros [|n]; simpl;
    try constructor; auto.
  rewrite Forall_forall in *. intros y Hy. eauto using in_firstn.
Qed.

Lemma sorted_app_inv (l1 l2 : list MemoryRow) :
  StronglySorted no_older (l1 ++ l2) ->
  forall a b, In a l1 -> In b l2 -> no_older a b.
Proof.
  induction l1 as [|x l1 IH]; simpl; [contradiction|].
  intros H a b [<-|Ha] Hb; inversion_clear H as [|? ? Hs Hx].
  - rewrite Forall_forall in Hx. apply Hx. apply in_or_app. now right.
  - eauto.
Qed.

(** Earlier in a sorted window means at least as recent. *)
Lemma sorted_positions (w w1 w2 w3 : list MemoryRow) (a b : MemoryRow) :
  StronglySorted no_older w -> w = w1 ++ a :: w2 ++ b :: w3 -> no_older a b.
Proof.
  intros H ->.
  apply (sorted_app_inv (w1 ++ [a]) (w2 ++ b :: w3)).
  - now rewrite <- app_assoc.
  - apply in_or_app. right. now left.
  - apply in_or_app. right. now left.
Qed.

Section Recent.

Variables (t p : string) (rows : list MemoryRow).

Lemma recent_sorted :
  StronglySorted no_older (recent_memories t p rows).
Proof. apply sorted_firstn, order_sorted. Qed.

Lemma recent_In (m : MemoryRow) :
  In m (recent_memories t p rows) ->
  In m rows /\ cm_session_token m = t /\ cm_personality_id m = p.
Proof.
  unfold recent_memories. intros H.
  assert (Hf : In m (filter (scoped_to t p) rows)).
  { eapply Permutation_in; [apply order_perm|]. eauto using in_firstn. }
  apply filter_In in Hf as [Hin Hs]. unfold scoped_to in Hs.
  apply andb_true_iff in Hs as [H1 H2].
  apply String.eqb_eq in H1, H2. auto.
Qed.

Lemma recent_length :
  List.length (recent_memories t p rows)
  = Nat.min 10 (List.length (filter (scoped_to t p) rows)).
Proof.
  unfold recent_memories.
  now rewrite length_firstn, (Permutation_length (order_perm _)).
Qed.

(** Nothing left out of the window is more recent than something in it. *)
Lemma recent_top (m m' : MemoryRow) :
  In m (recent_memories t p rows) -> In m' rows -> scoped_to t p m' = true ->
  created_at m < created_at m' -> In m' (recent_memories t p rows).
Proof.
  unfold recent_memories. intros Hm Hm' Hs Hlt.
  set (l := order_created_at_desc (filter (scoped_to t p) rows)) in *.
  assert (Hl : In m' l).
  { eapply Permutation_in; [symmetry; apply order_perm|].
    apply filter_In. auto. }
  rewrite <- (firstn_skipn 10 l) in Hl. apply in_app_or in Hl as [Hl|Hl]; [exact Hl|].
  pose proof (order_sorted (filter (scoped_to t p) rows)) as Hsorted.
  fold l in Hsorted. rewrite <- (firstn_skipn 10 l) in Hsorted.
  pose proof (sorted_app_inv _ _ Hsorted m m' Hm Hl) as H.
  unfold no_older in H. lia.
Qed.

End Recent.

Lemma recent_none (t p : string) (rows : list MemoryRow) :
  (forall m, In m rows -> scoped_to t p m = false) ->
  recent_memories t p rows = [].
Proof.
  intros H. unfold recent_memories.
  assert (E : filter (scoped_to t p) rows = []).
  { induction rows as [|x rows IH]; simpl; [reflexivity|].
    rewrite (H x) by now left. apply IH. intros m Hm. apply H. now right. }
  now rewrite E.
Qed.

End Window.

(** * The handler *)

Ltac unfold_store_ops :=
  unfold select_session, insert_session, select_personality, select_memory,
    insert_memory, update_session, createSupabaseClient,
    bind, ret, emit, get_store, put_store, early_return, throw.

Ltac unfold_handler :=
  unfold handler, conversation, try_catch, resolve_session, record_turn;
  unfold_store_ops.

(** One case split of the handler's control flow: the innermost test. *)
Ltac branch :=
  match goal with
  | |- context [match ?x with _ => _ end] =>
      lazymatch x with
      | context [match _ with _ => _ end] => fail
      | _ => destruct x eqn:?
      end
  end.

Ltac reduce_world :=
  cbn [store log trace final_store response app fst snd
       user_sessions artwork_personalities conversation_memory].

(** Every path through the handler, one goal per path. *)
Ltac run_handler :=
  unfold_handler; reduce_world; repeat (branch; reduce_world).

Section Validation.

Lemma falsy_missing (o : option string) : JS.falsy o = true <-> missing o.
Proof.
  unfold missing. destruct o as [[|c s]|]; simpl.
  - split; auto.
  - split; [discriminate | intros [H|H]; discriminate].
  - split; auto.
Qed.

(** C5. A request whose [message] or [personality_id] is absent or empty
    is answered with INVALID_REQUEST, status 400, and causes no store
    access and no generation call: the trace is empty and the store is the
    one the invocation started with. *)
Theorem validation_first :
  forall (env : Env) (db : Store) (req : Request) (body : MemoryEnhancedRequest),
    json req = Some body ->
    missing (message body) \/ missing (personality_id body) ->
    trace (handler env db req) = [] /\
    final_store (handler env db req) = db /\
    (method req = "POST" ->
     response (handler env db req) = INVALID_REQUEST env /\
     status (response (handler env db req)) = 400 /\
     filter is_store_access (trace (handler env db req)) = [] /\
     filter is_generation (trace (handler env db req)) = []).
Proof.
  intros env db req body Hjson Hmiss.
  assert (Hf : JS.falsy (message body) || JS.falsy (personality_id body) = true).
  { apply orb_true_iff. now rewrite !falsy_missing. }
  unfold_handler. rewrite Hjson, Hf.
  destruct (method req =? "OPTIONS")%string eqn:Ho.
  - split; [reflexivity | split; [reflexivity|]].
    intros E. rewrite E in Ho. discriminate.
  - destruct (method req =? "POST")%string eqn:Hp; simpl.
    + repeat split; reflexivity.
    + split; [reflexivity | split; [reflexivity|]].
      intros E. rewrite E in Hp. discriminate.
Qed.

Lemma validation_first_witness :
  trace (handler Sample.env Sample.empty_store
           (Sample.post (Some "") (Some "P1") None)) = [] /\
  response (handler Sample.env Sample.empty_store
              (Sample.post (Some "") (Some "P1") None))
    = INVALID_REQUEST Sample.env.
Proof.
  destruct (validation_first Sample.env Sample.empty_store
              (Sample.post (Some "") (Some "P1") None)
              {| message := Some ""; personality_id := Some "P1";
                 session_token := None; conversation_id := None;
                 remember_context := None; conversation_style := None |}
              eq_refl (or_introl (or_intror eq_refl)))
    as [Ht [_ Hr]].
  split; [exact Ht | exact (proj1 (Hr eq_refl))].
Defined.

End Validation.

Section Resolver.

Lemma no_session (t : string) (l : list UserSession) :
  ~ In t (map us_session_token l) -> filter (has_token t) l = [].
Proof.
  induction l as [|x l IH]; simpl; [reflexivity|]. intros H.
  unfold has_token at 1. destruct (String.eqb_spec (us_session_token x) t).
  - exfalso. apply H. now left.
  - apply IH. intros Hin. apply H. now right.
Qed.

Lemma unique_session (t : string) (s : UserSession) (l : list UserSession) :
  NoDup (map us_session_token l) -> In s l -> us_session_token s = t ->
  filter (has_token t) l = [s].
Proof.
  induction l as [|x l IH]; simpl; [contradiction|].
  intros Hnd Hin Ht. inversion_clear Hnd as [|? ? Hx Hl].
  unfold has_token at 1. destruct Hin as [-> | Hin].
  - rewrite Ht, String.eqb_refl. f_equal. apply no_session. now rewrite <- Ht.
  - destruct (String.eqb_spec (us_session_token x) t) as [E|_]; [|auto].
    exfalso. apply Hx. rewrite E, <- Ht. now apply in_map.
Qed.

Lemma resolve_found (env : Env) (t : string) (s : UserSession) (w : World) :
  select_session_fails (faults env) = false ->
  filter (has_token t) (user_sessions (store w)) = [s] ->
  resolve_session env t w
  = (Value (Some s), {| store := store w; log := log w ++ [SelectSession t] |}).
Proof.
  intros Hf Hs. unfold resolve_session. unfold_store_ops.
  cbn [store log]. now rewrite Hf, Hs.
Qed.

(** C9. Resolving a token that already has a session returns that session
    as it is and writes nothing; doing it twice returns the same session
    both times, and the token still has exactly one row. *)
Theorem resolve_known_token :
  forall (env : Env) (db : Store) (lg : list Event) (t : string) (s : UserSession),
    select_session_fails (faults env) = false ->
    token_is_key db ->
    In s (user_sessions db) ->
    us_session_token s = t ->
    resolve_session env t {| store := db; log := lg |}
    = (Value (Some s), {| store := db; log := lg ++ [SelectSession t] |}) /\
    resolve_twice env t {| store := db; log := lg |}
    = (Value (Some s), Value (Some s),
       {| store := db; log := lg ++ [SelectSession t; SelectSession t] |}) /\
    filter (has_token t) (user_sessions db) = [s].
Proof.
  intros env db lg t s Hf Hkey Hin Ht.
  pose proof (unique_session t s _ Hkey Hin Ht) as Hs.
  assert (H1 : forall lg',
             resolve_session env t {| store := db; log := lg' |}
             = (Value (Some s),
                {| store := db; log := lg' ++ [SelectSession t] |})).
  { intros lg'. now apply (resolve_found env t s {| store := db; log := lg' |}). }
  split; [apply H1 | split; [|exact Hs]].
  unfold resolve_twice. rewrite !H1, <- app_assoc. reflexivity.
Qed.

Lemma resolve_known_token_witness :
  resolve_twice Sample.env "s" {| store := Sample.talked_store; log := [] |}
  = (Value (Some Sample.known), Value (Some Sample.known),
     {| store := Sample.talked_store;
        log := [SelectSession "s"; SelectSession "s"] |}).
Proof.
  refine (proj1 (proj2 (resolve_known_token Sample.env Sample.talked_store []
                          "s" Sample.known eq_refl _ _ eq_refl))).
  - repeat constructor. simpl. tauto.
  - simpl. now left.
Defined.

End Resolver.

Section Generation.

Lemma single_filter {A : Type} (f : A -> bool) (l : list A) (x : A) :
  single (filter f l) = Some x -> In x l /\ f x = true.
Proof.
  unfold single. destruct (filter f l) as [|y [|z l']] eqn:E; try discriminate.
  intros [= <-]. apply filter_In. rewrite E. now left.
Qed.

(** Whatever is sent to the generation backend is the prompt composed
    from the stored profile of the requested personality, the window
    loaded for the request's session token and personality, and the
    sanitised message. *)
Lemma handler_generates (env : Env) (db : Store) (req : Request) (text : string) :
  In (Generate text) (trace (handler env db req)) ->
  exists body p,
    json req = Some body /\ In p (artwork_personalities db) /\
    id p = field (personality_id body) /\
    text = composed_prompt (personality_data p) (loaded_window env db body)
             (sanitized body).
Proof.
  run_handler.
  all: cbn [In]; intros H;
    repeat (destruct H as [H|H]; try discriminate); try contradiction.
  all: injection H as <-.
  all: match goal with
       | Hs : single (filter _ (artwork_personalities _)) = Some ?p
         |- exists b _, Some ?m = Some b /\ _ =>
           exists m, p; apply single_filter in Hs as [Hin Hid];
           apply String.eqb_eq in Hid;
           split; [reflexivity | split; [exact Hin | split; [exact Hid|]]]
       end.
  all: unfold composed_prompt, loaded_window, sanitized, effective_token.
  all: match goal with
       | Hm : select_memory_fails _ = _ |- _ => rewrite Hm
       end.
  all: reflexivity.
Qed.

End Generation.

Section WindowClaims.

Local Open Scope list_scope.

(** C4. The window loaded for a request holds only rows whose session
    token and personality both match, at most ten of them, most recent
    first, and they are the most recent matching rows; it is the empty
    list when no row matches.  Loading never throws: the query returns a
    value in every world.  The prompt the handler sends is composed from
    this window, taken for the request's session token and personality. *)
Theorem memory_window_scoped :
  (forall (t p : string) (rows : list MemoryRow),
      (forall m, In m (recent_memories t p rows) ->
                 In m rows /\ cm_session_token m = t /\ cm_personality_id m = p) /\
      (List.length (recent_memories t p rows) <= 10)%nat /\
      List.length (recent_memories t p rows)
        = Nat.min 10 (List.length (filter (scoped_to t p) rows)) /\
      StronglySorted no_older (recent_memories t p rows) /\
      (forall m m', In m (recent_memories t p rows) -> In m' rows ->
                    scoped_to t p m' = true -> created_at m < created_at m' ->
                    In m' (recent_memories t p rows)) /\
      ((forall m, In m rows -> scoped_to t p m = false) ->
       recent_memories t p rows = [])) /\
  (forall (fl : Faults) (t p : string) (w : World),
      exists r, select_memory fl t p w
                = (Value r, {| store := store w;
                               log := log w ++ [SelectMemory t p] |}) /\
                (select_memory_fails fl = false ->
                 r = Some (recent_memories t p (conversation_memory (store w))))) /\
  (forall (env : Env) (db : Store) (req : Request) (text : string),
      In (Generate text) (trace (handler env db req)) ->
      exists body p,
        json req = Some body /\ In p (artwork_personalities db) /\
        id p = field (personality_id body) /\
        loaded_window env db body
          = (if select_memory_fails (faults env) then None
             else Some (recent_memories
                          (JS.or_else (session_token body) (random_session_token env))
                          (field (personality_id body))
                          (conversation_memory db))) /\
        text = composed_prompt (personality_data p)
                 (loaded_window env db body) (sanitized body)).
Proof.
  split; [|split].
  - intros t p rows. repeat split.
    + now apply recent_In in H.
    + now apply recent_In in H.
    + now apply recent_In in H.
    + rewrite recent_length. apply Nat.le_min_l.
    + apply recent_length.
    + apply recent_sorted.
    + apply recent_top.
    + apply recent_none.
  - intros fl t p w. unfold select_memory. unfold_store_ops. cbn [store log].
    eexists. split; [reflexivity|]. now intros ->.
  - intros env db req text H.
    destruct (handler_generates env db req text H) as [body [p [Hj [Hp [Hid Ht]]]]].
    exists body, p. repeat split; assumption.
Qed.

Lemma transcript_positions (w1 w2 w3 : list MemoryRow) (a b : MemoryRow) :
  exists pre mid post,
    transcript (w1 ++ a :: w2 ++ b :: w3)
    = (pre ++ render_memory a ++ mid ++ render_memory b ++ post)%string.
Proof.
  unfold transcript. rewrite map_app. simpl map. rewrite map_app. simpl map.
  destruct (join_middle (JS.LF ++ JS.LF)%string (render_memory a) (map render_memory w1)
              (map render_memory w2 ++ render_memory b :: map render_memory w3))
    as [pre [post [E Hpost]]].
  rewrite E, Hpost by (destruct (map render_memory w2); discriminate).
  destruct (join_middle (JS.LF ++ JS.LF)%string (render_memory b) (map render_memory w2)
              (map render_memory w3))
    as [pre' [post' [E' _]]].
  rewrite E'. exists pre, ((JS.LF ++ JS.LF) ++ pre')%string, post'.
  now rewrite !append_assoc.
Qed.

(** C1, as the code has it.  For a non-empty window the prompt carries the
    "Previous conversation:" block whose transcript renders each entry as
    a "User: <message>" / "AI: <response>" pair, in the order of the
    window: an entry that comes earlier in the window is rendered earlier
    in the prompt.  For the window the store returns, earlier means at
    least as recent, so the newest entry is rendered first. *)
Theorem transcript_in_window_order :
  forall (pd : option PersonalityData) (msg : string) (w : list MemoryRow),
    w <> [] ->
    composed_prompt pd (Some w) msg
    = (persona_of pd ++ JS.LF ++ JS.LF
         ++ (previous_header ++ JS.LF ++ transcript w ++ JS.LF ++ JS.LF)
         ++ JS.LF ++ JS.LF ++ closing_instruction ++ user_cue msg)%string /\
    (forall m, render_memory m
               = ("User: " ++ user_message m ++ JS.LF ++ "AI: " ++ ai_response m)%string) /\
    (forall w1 a w2 b w3,
        w = w1 ++ a :: w2 ++ b :: w3 ->
        exists pre mid post,
          transcript w
          = (pre ++ render_memory a ++ mid ++ render_memory b ++ post)%string) /\
    (forall t p rows,
        w = recent_memories t p rows ->
        forall w1 a w2 b w3,
          w = w1 ++ a :: w2 ++ b :: w3 -> created_at b <= created_at a).
Proof.
  intros pd msg w Hw. split; [|split; [|split]].
  - now apply composed_with_block.
  - reflexivity.
  - intros w1 a w2 b w3 ->. apply transcript_positions.
  - intros t p rows -> w1 a w2 b w3 E.
    exact (sorted_positions _ _ _ _ _ _ (recent_sorted t p rows) E).
Qed.

Lemma transcript_in_window_order_witness :
  composed_prompt None (Some (recent_memories "s" "P1" Sample.two_turns)) "hi"
  = (persona_of None ++ JS.LF ++ JS.LF
       ++ (previous_header ++ JS.LF
             ++ transcript (recent_memories "s" "P1" Sample.two_turns)
             ++ JS.LF ++ JS.LF)
       ++ JS.LF ++ JS.LF ++ closing_instruction ++ user_cue "hi")%string.
Proof.
  refine (proj1 (transcript_in_window_order None "hi"
                   (recent_memories "s" "P1" Sample.two_turns) _)).
  vm_compute. discriminate.
Defined.

(** C1 fails as stated: with two stored turns the store returns the
    second turn first, and the prompt renders it first; the transcript is
    not the chronological one. *)
Lemma transcript_not_chronological :
  recent_memories "s" "P1" Sample.two_turns
    = [Sample.turn "s" "P1" "second" "two" 2; Sample.turn "s" "P1" "first" "one" 1] /\
  conversationContext (Some (recent_memories "s" "P1" Sample.two_turns))
    = ("User: second" ++ JS.LF ++ "AI: two" ++ JS.LF ++ JS.LF
         ++ "User: first" ++ JS.LF ++ "AI: one")%string /\
  chronological_context (recent_memories "s" "P1" Sample.two_turns)
    = ("User: first" ++ JS.LF ++ "AI: one" ++ JS.LF ++ JS.LF
         ++ "User: second" ++ JS.LF ++ "AI: two")%string /\
  In (Generate
        (generation_text
           (buildSystemPrompt None
              ("User: second" ++ JS.LF ++ "AI: two" ++ JS.LF ++ JS.LF
                 ++ "User: first" ++ JS.LF ++ "AI: one")%string) "hi"))
     (trace (handler Sample.env Sample.talked_store
               (Sample.post (Some "hi") (Some "P1") (Some "s")))) /\
  ~ In (Generate
          (generation_text
             (buildSystemPrompt None
                (chronological_context
                   (recent_memories "s" "P1" Sample.two_turns))) "hi"))
       (trace (handler Sample.env Sample.talked_store
                 (Sample.post (Some "hi") (Some "P1") (Some "s")))).
Proof.
  split; [reflexivity|]. split; [reflexivity|]. split; [reflexivity|]. split.
  - vm_compute. tauto.
  - vm_compute. intros H.
    repeat (destruct H as [H|H]; try discriminate). contradiction.
Qed.

End WindowClaims.

Section Completion.

Lemma trim_truthy (s : string) : s <> "" -> JS.truthy s = true.
Proof. destruct s; [congruence | reflexivity]. Qed.

(** What follows a generation call that succeeded: the turn is recorded
    (the insert is attempted and takes effect unless it fails), the
    session update is issued, and the reply is returned as a success. *)
Lemma handler_after_generation (env : Env) (db : Store) (req : Request)
    (text : string) (st : Z) (raw : string) :
  In (Generate text) (trace (handler env db req)) ->
  gemini env text = Responded st (Candidates (Some raw)) ->
  status_ok st = true ->
  JS.trim raw <> "" ->
  exists body p session,
    json req = Some body /\
    response (handler env db req)
      = success_response env (effective_token env body) p (JS.trim raw) /\
    In (InsertMemory
          (memory_row env (effective_token env body) p
             (field (personality_id body)) (sanitized body) (JS.trim raw)))
       (trace (handler env db req)) /\
    In (UpdateSession (effective_token env body) (now env)
          (conversations_so_far session + 1))
       (trace (handler env db req)) /\
    conversation_memory (final_store (handler env db req))
      = if insert_memory_fails (faults env)
        then conversation_memory db
        else (conversation_memory db
                ++ [memory_row env (effective_token env body) p
                      (field (personality_id body)) (sanitized body)
                      (JS.trim raw)])%list.
Proof.
  intros H Hgem Hst Htrim. apply trim_truthy in Htrim. revert H.
  run_handler;
    cbn [In]; intros H;
    repeat (destruct H as [H|H]; try discriminate); try contradiction;
    injection H as <-;
    match goal with
    | Hg : gemini _ _ = _ |- _ =>
        rewrite Hgem in Hg; try discriminate Hg; injection Hg as <- <-
    end;
    match goal with
    | Hs : negb (status_ok _) = _ |- _ =>
        rewrite Hst in Hs; try discriminate Hs
    end;
    match goal with
    | Hf : JS.falsy (option_map JS.trim (Some raw)) = _ |- _ =>
        cbn [option_map JS.falsy] in Hf; rewrite Htrim in Hf;
        try discriminate Hf
    end;
    unfold success_response, effective_token, sanitized;
    match goal with
    | |- exists b _ _, Some ?m = Some b /\ _ => exists m
    end;
    match goal with
    | Hs : single (filter _ (artwork_personalities _)) = Some ?p |- _ =>
        exists p
    end;
    eexists; (split; [reflexivity|]); (split; [reflexivity|]);
    cbn [In option_map field]; (split; [tauto|]);
    (split; [repeat (first [left; reflexivity | right]) | reflexivity]).
Qed.

End Completion.

Section LostMemory.

(** Whether the memory insert fails changes neither the response, nor the
    calls made, nor the session table. *)
Lemma insert_failure_invisible (env : Env) (db : Store) (req : Request) :
  response (handler env db req)
    = response (handler (with_reliable_insert env) db req) /\
  trace (handler env db req)
    = trace (handler (with_reliable_insert env) db req) /\
  user_sessions (final_store (handler env db req))
    = user_sessions (final_store (handler (with_reliable_insert env) db req)).
Proof.
  unfold_handler.
  unfold with_reliable_insert, error_response, createApiResponse,
    generateRequestId.
  cbn [now random_request_id random_session_token SUPABASE_URL
       SUPABASE_ANON_KEY GEMINI_API_KEY gemini faults
       select_session_fails insert_session_fails select_personality_fails
       select_memory_fails insert_memory_fails update_session_fails].
  repeat (branch; reduce_world).
  all: repeat split; reflexivity.
Qed.

(** C3. When the generation call succeeds and the memory insert then
    fails, the caller receives a success response carrying the generated
    reply; the memory table is what it was, so the turn is lost; the
    insert was attempted and the session update is still issued, and both
    the response and the session table are those of the invocation in
    which the insert succeeds: no error, no rollback. *)
Theorem reply_survives_lost_memory :
  forall (env : Env) (db : Store) (req : Request)
         (text : string) (st : Z) (raw : string),
    In (Generate text) (trace (handler env db req)) ->
    gemini env text = Responded st (Candidates (Some raw)) ->
    status_ok st = true ->
    JS.trim raw <> "" ->
    insert_memory_fails (faults env) = true ->
    succeeds_with (response (handler env db req)) (JS.trim raw) /\
    conversation_memory (final_store (handler env db req))
      = conversation_memory db /\
    (exists row, In (InsertMemory row) (trace (handler env db req)) /\
                 ai_response row = JS.trim raw) /\
    (exists t active total,
        In (UpdateSession t active total) (trace (handler env db req))) /\
    response (handler env db req)
      = response (handler (with_reliable_insert env) db req) /\
    user_sessions (final_store (handler env db req))
      = user_sessions (final_store (handler (with_reliable_insert env) db req)).
Proof.
  intros env db req text st raw Hin Hgem Hst Htrim Hfail.
  destruct (handler_after_generation env db req text st raw Hin Hgem Hst Htrim)
    as [body [p [session [Hj [Hr [Hi [Hu Hm]]]]]]].
  destruct (insert_failure_invisible env db req) as [Er [_ Es]].
  rewrite Hfail in Hm.
  split; [|split; [exact Hm | split; [|split; [|split; [exact Er | exact Es]]]]].
  - rewrite Hr. unfold succeeds_with, success_response. split; [reflexivity|].
    do 2 eexists. repeat split.
  - eexists. split; [exact Hi | reflexivity].
  - eauto.
Qed.

Lemma reply_survives_lost_memory_witness :
  succeeds_with
    (response (handler SampleFaults.lossy_env Sample.empty_store Sample.hello))
    "I'm doing well, thank you!" /\
  conversation_memory
    (final_store (handler SampleFaults.lossy_env Sample.empty_store Sample.hello))
    = [].
Proof.
  destruct (reply_survives_lost_memory SampleFaults.lossy_env
              Sample.empty_store Sample.hello
              (composed_prompt None (Some []) "Hello, how are you?")
              200 "I'm doing well, thank you!")
    as [Hs [Hm _]].
  - vm_compute. tauto.
  - reflexivity.
  - reflexivity.
  - vm_compute. discriminate.
  - reflexivity.
  - split; [exact Hs | exact Hm].
Defined.

End LostMemory.

Section WhitespaceMessage.

Lemma trimStart_all_space (s : string) :
  all_space s = true -> JS.trimStart s = "".
Proof.
  induction s as [|c s IH]; simpl; [reflexivity|].
  intros H. apply andb_true_iff in H as [Hc Hs]. rewrite Hc. auto.
Qed.

Lemma trim_all_space (s : string) : all_space s = true -> JS.trim s = "".
Proof. intros H. unfold JS.trim. now rewrite trimStart_all_space. Qed.

(** Every row the handler tries to insert is the row of the request. *)
Lemma handler_inserts (env : Env) (db : Store) (req : Request) (row : MemoryRow) :
  In (InsertMemory row) (trace (handler env db req)) ->
  exists body p answer,
    json req = Some body /\
    row = memory_row env (effective_token env body) p
            (field (personality_id body)) (sanitized body) answer.
Proof.
  run_handler;
    cbn [In]; intros H;
    repeat (destruct H as [H|H]; try discriminate); try contradiction;
    injection H as <-; eauto.
Qed.

(** The only response with status 400 is the validation error. *)
Lemma handler_status_400 (env : Env) (db : Store) (req : Request)
    (body : MemoryEnhancedRequest) :
  json req = Some body -> valid body ->
  status (response (handler env db req)) <> 400.
Proof.
  unfold valid. intros Hj Hv. revert Hj.
  run_handler; intros Hj; try discriminate Hj;
    try (injection Hj as ->; congruence);
    cbn [status error_response json_response]; discriminate.
Qed.

(** A valid POST request against a configured store that knows the
    personality, with the backend key set, reaches the generation call. *)
Lemma handler_reaches_generation (env : Env) (db : Store) (req : Request)
    (body : MemoryEnhancedRequest) (p : Personality) :
  method req = "POST" -> json req = Some body -> valid body ->
  configured env -> serves env db (field (personality_id body)) p ->
  JS.falsy (GEMINI_API_KEY env) = false ->
  In (Generate (composed_prompt (personality_data p)
                  (loaded_window env db body) (sanitized body)))
     (trace (handler env db req)).
Proof.
  unfold valid, configured, serves, composed_prompt, loaded_window, sanitized,
    effective_token.
  intros Hm Hj Hv Hc [Hpf Hp] Hk.
  assert (Ho : (method req =? "OPTIONS")%string = false) by now rewrite Hm.
  assert (Hpost : (method req =? "POST")%string = true) by now rewrite Hm.
  unfold_handler. rewrite Ho, Hpost, Hj, Hv, Hc, Hpf, Hk.
  cbn [negb]. reduce_world.
  repeat (branch; reduce_world);
    try discriminate Hp; injection Hp as ->; cbn [In]; tauto.
Qed.

(** C10. A POST request whose message is not empty but whose first 5000
    characters are all white space passes validation: the response is not
    INVALID_REQUEST, and the sanitised message is the empty string.  That
    empty string is what any generation prompt of the invocation carries
    under "User:", and what any inserted memory row holds as
    [user_message]; when the store is configured, the personality is
    known and the backend key is set, the generation call is made with
    it, and once the backend answers the row holding it is inserted. *)
Theorem whitespace_message_passes :
  forall (env : Env) (db : Store) (req : Request)
         (body : MemoryEnhancedRequest) (msg : string),
    method req = "POST" ->
    json req = Some body ->
    message body = Some msg ->
    msg <> "" ->
    all_space (JS.slice0 5000 msg) = true ->
    JS.falsy (personality_id body) = false ->
    sanitizeInput msg 5000 = "" /\
    response (handler env db req) <> INVALID_REQUEST env /\
    status (response (handler env db req)) <> 400 /\
    (forall text,
        In (Generate text) (trace (handler env db req)) ->
        exists p,
          text = generation_text
                   (buildSystemPrompt (personality_data p)
                      (conversationContext (loaded_window env db body))) "" /\
          text = buildSystemPrompt (personality_data p)
                   (conversationContext (loaded_window env db body))
                   ++ JS.LF ++ JS.LF ++ "User: " ++ JS.LF ++ JS.LF ++ "AI:") /\
    (forall row,
        In (InsertMemory row) (trace (handler env db req)) ->
        user_message row = "") /\
    (forall p,
        configured env ->
        serves env db (field (personality_id body)) p ->
        JS.falsy (GEMINI_API_KEY env) = false ->
        In (Generate (composed_prompt (personality_data p)
                        (loaded_window env db body) ""))
           (trace (handler env db req)) /\
        forall st raw,
          gemini env (composed_prompt (personality_data p)
                        (loaded_window env db body) "")
            = Responded st (Candidates (Some raw)) ->
          status_ok st = true ->
          JS.trim raw <> "" ->
          exists row,
            In (InsertMemory row) (trace (handler env db req)) /\
            user_message row = "" /\
            (insert_memory_fails (faults env) = false ->
             In row (conversation_memory (final_store (handler env db req))))).
Proof.
  intros env db req body msg Hm Hj Hmsg Hne Hsp Hpid.
  assert (Hsan : sanitized body = "").
  { unfold sanitized, sanitizeInput. rewrite Hmsg. now apply trim_all_space. }
  assert (Hv : valid body).
  { unfold valid. rewrite Hmsg, Hpid. simpl. now rewrite trim_truthy. }
  pose proof (handler_status_400 env db req body Hj Hv) as H400.
  split; [now apply trim_all_space|]. split; [|split; [exact H400|]].
  { intros E. apply H400. now rewrite E. }
  split; [|split].
  - intros text Hin.
    destruct (handler_generates env db req text Hin) as [b [p [Hb [_ [_ Ht]]]]].
    assert (b = body) as -> by congruence.
    rewrite Hsan in Ht. exists p. split; exact Ht.
  - intros row Hin.
    destruct (handler_inserts env db req row Hin) as [b [p [a [Hb ->]]]].
    assert (b = body) as -> by congruence. exact Hsan.
  - intros p Hc Hs Hk.
    pose proof (handler_reaches_generation env db req body p Hm Hj Hv Hc Hs Hk)
      as Hgen.
    rewrite Hsan in Hgen. split; [exact Hgen|].
    intros st raw Hg Hst Htrim.
    destruct (handler_after_generation env db req _ st raw Hgen Hg Hst Htrim)
      as [b [p' [session [Hb [_ [Hi [_ Hmem]]]]]]].
    assert (b = body) as -> by congruence.
    eexists. split; [exact Hi|]. split; [exact Hsan|].
    intros Hok. rewrite Hmem, Hok. apply in_or_app. right. now left.
Qed.

Lemma whitespace_message_passes_witness :
  sanitizeInput "   " 5000 = "" /\
  status (response (handler Sample.env Sample.empty_store
                      (Sample.post (Some "   ") (Some "P1") None))) <> 400 /\
  forall row,
    In (InsertMemory row)
       (trace (handler Sample.env Sample.empty_store
                 (Sample.post (Some "   ") (Some "P1") None))) ->
    user_message row = "".
Proof.
  destruct (whitespace_message_passes Sample.env Sample.empty_store
              (Sample.post (Some "   ") (Some "P1") None)
              {| message := Some "   "; personality_id := Some "P1";
                 session_token := None; conversation_id := None;
                 remember_context := None; conversation_style := None |}
              "   " eq_refl eq_refl eq_refl)
    as [Hs [_ [H400 [_ [Hrow _]]]]].
  - discriminate.
  - reflexivity.
  - reflexivity.
  - split; [exact Hs | split; [exact H400 | exact Hrow]].
Defined.

End WhitespaceMessage.

(** * The turn counter *)

Section TurnCount.

Local Open Scope list_scope.



Lemma single_some {A : Type} (l : list A) (x : A) :
  single l = Some x -> l = [x].
Proof. destruct l as [|y [|z l]]; simpl; congruence. Qed.


Lemma single_none_absent (t : string) (l : list UserSession) :
  NoDup (map us_session_token l) ->
  single (filter (has_token t) l) = None ->
  ~ In t (map us_session_token l).
Proof.
  intros Hnd Hs Hin. apply in_map_iff in Hin as [s [Ht Hin]].
  rewrite (unique_session t s l Hnd Hin Ht) in Hs. discriminate.
Qed.




Lemma touch_token (t : string) (a n : Z) (s : UserSession) :
  us_session_token (touch t a n s) = us_session_token s.
Proof. unfold touch. destruct (has_token t s); reflexivity. Qed.

Lemma touch_tokens (t : string) (a n : Z) (l : list UserSession) :
  map us_session_token (map (touch t a n) l) = map us_session_token l.
Proof. rewrite map_map. apply map_ext. apply touch_token. Qed.







Lemma created_session_found (env : Env) (db : Store) (t : string) :
  token_is_key db ->
  single (filter (has_token t) (user_sessions db)) = None ->
  single (filter (has_token t)
            (user_sessions (with_session db (new_session env t))))
  = Some (new_session env t).
Proof.
  intros Hkey Hs. cbn [with_session user_sessions].
  rewrite filter_app, (no_session t _ (single_none_absent t _ Hkey Hs)).
  simpl. unfold has_token. cbn [new_session us_session_token].
  now rewrite String.eqb_refl.
Qed.



Lemma resolve_created (env : Env) (t : string) (w : World) :
  select_session_fails (faults env) = false ->
  insert_session_fails (faults env) = false ->
  single (filter (has_token t) (user_sessions (store w))) = None ->
  resolve_session env t w
  = (Value (Some (new_session env t)),
     {| store := with_session (store w) (new_session env t);
        log := log w ++ [SelectSession t; InsertSession (new_session env t)] |}).
Proof.
  intros Hf Hi Hs. unfold resolve_session. unfold_store_ops.
  cbn [store log]. rewrite Hf, Hs. cbn [store log]. rewrite Hi.
  cbn [store log]. now rewrite <- app_assoc.
Qed.




(** C2.  The counter of a session is meant to equal the number of memory
    rows recorded for it.  The handler breaks this on the first turn of a
    session it creates: the session is inserted with counter 1 and the
    completed turn writes 1 + 1, so the request succeeds (status 200) and
    leaves counter 2 beside one memory row.  The relation holds in the
    empty store and fails in the store the invocation leaves. *)
Lemma turn_count_off_by_one :
  status (response (handler Sample.env Sample.empty_store Sample.hello)) = 200 /\
  map (fun s => (total_conversations s,
                 turns_of (us_session_token s)
                   (conversation_memory
                      (final_store
                         (handler Sample.env Sample.empty_store Sample.hello)))))
      (user_sessions
         (final_store (handler Sample.env Sample.empty_store Sample.hello)))
    = [(2, 1)] /\
  counted_as_claimed Sample.empty_store /\
  ~ counted_as_claimed
      (final_store (handler Sample.env Sample.empty_store Sample.hello)).
Proof.
  split; [reflexivity|]. split; [reflexivity|]. split.
  - intros s [].
  - intros H.
    specialize (H {| us_session_token := "session_1000_abcdefghi";
                     first_visit := 1000; last_active := 1000;
                     total_conversations := 2 |}).
    vm_compute in H. specialize (H (or_introl eq_refl)). discriminate.
Qed.

End TurnCount.

(** * Further properties of the code *)

Section Sanitize.

Lemma slice0_length (n : nat) (s : string) :
  (String.length (JS.slice0 n s) <= n)%nat.
Proof.
  unfold JS.slice0. revert s. induction n as [|n IH]; intros [|c s]; simpl;
    try lia. specialize (IH s). lia.
Qed.

Lemma slice0_short (n : nat) (s : string) :
  (String.length s <= n)%nat -> JS.slice0 n s = s.
Proof.
  unfold JS.slice0. revert s. induction n as [|n IH]; intros [|c s]; simpl;
    try reflexivity; try lia.
  intros H. f_equal. apply IH. lia.
Qed.

Lemma slice0_prefix (n : nat) (s : string) :
  exists post, s = JS.slice0 n s ++ post.
Proof.
  unfold JS.slice0. revert s. induction n as [|n IH]; intros [|c s]; simpl.
  - now exists "".
  - now exists (String c s).
  - now exists "".
  - destruct (IH s) as [post E]. exists post. congruence.
Qed.

Lemma trimStart_suffix (s : string) : exists pre, s = pre ++ JS.trimStart s.
Proof.
  induction s as [|c s [pre IH]]; simpl.
  - now exists "".
  - destruct (JS.is_space c).
    + exists (String c pre). simpl. congruence.
    + now exists "".
Qed.

Lemma trimEnd_prefix (s : string) : exists post, s = JS.trimEnd s ++ post.
Proof.
  induction s as [|c s [post IH]]; simpl.
  - now exists "".
  - destruct (JS.is_space c && negb (JS.truthy (JS.trimEnd s))).
    + now exists (String c s).
    + exists post. simpl. congruence.
Qed.

Lemma trimStart_starts (s : string) :
  JS.starts_with_space (JS.trimStart s) = false.
Proof.
  induction s as [|c s IH]; simpl; [reflexivity|].
  destruct (JS.is_space c) eqn:E; [exact IH | simpl; exact E].
Qed.

Lemma trimEnd_starts (s : string) :
  JS.starts_with_space s = false -> JS.starts_with_space (JS.trimEnd s) = false.
Proof.
  destruct s as [|c s]; simpl; [reflexivity|]. intros H. rewrite H. exact H.
Qed.

Lemma trimEnd_ends (s : string) : ~ ends_with_space (JS.trimEnd s).
Proof.
  induction s as [|c s IH]; simpl.
  - intros [s' [d [E _]]]. destruct s'; discriminate.
  - destruct (JS.is_space c) eqn:Hc; simpl.
    + destruct (JS.trimEnd s) as [|d r] eqn:Er; simpl.
      * intros [s' [e [E _]]]. destruct s'; discriminate.
      * intros H. apply ends_with_space_inv in H as [[E _] | H]; [discriminate | auto].
    + intros H. apply ends_with_space_inv in H as [[_ E] | H]; [congruence | auto].
Qed.

Lemma trimStart_fixed (s : string) :
  JS.starts_with_space s = false -> JS.trimStart s = s.
Proof. destruct s as [|c s]; simpl; [reflexivity|]. now intros ->. Qed.

Lemma trimEnd_fixed (s : string) : ~ ends_with_space s -> JS.trimEnd s = s.
Proof.
  induction s as [|c s IH]; simpl; [reflexivity|]. intros H.
  assert (Hs : ~ ends_with_space s).
  { intros E. apply H. now apply ends_with_space_cons. }
  rewrite (IH Hs). destruct (JS.is_space c) eqn:Hc; simpl; [|reflexivity].
  destruct s as [|d s]; simpl; [|reflexivity].
  exfalso. apply H. now apply ends_with_space_single.
Qed.

Lemma append_length (a b : string) :
  String.length (a ++ b) = (String.length a + String.length b)%nat.
Proof. induction a; simpl; congruence. Qed.

Lemma sanitize_parts (input : string) (n : nat) :
  exists pre mid post,
    input = JS.slice0 n input ++ post /\
    JS.slice0 n input = pre ++ JS.trimStart (JS.slice0 n input) /\
    JS.trimStart (JS.slice0 n input) = sanitizeInput input n ++ mid.
Proof.
  unfold sanitizeInput, JS.trim.
  destruct (slice0_prefix n input) as [post Hs].
  destruct (trimStart_suffix (JS.slice0 n input)) as [pre Ht].
  destruct (trimEnd_prefix (JS.trimStart (JS.slice0 n input))) as [mid He].
  exists pre, mid, post. auto.
Qed.

Lemma sanitize_facts (input : string) (n : nat) :
  (String.length (sanitizeInput input n) <= n)%nat /\
  JS.starts_with_space (sanitizeInput input n) = false /\
  ~ ends_with_space (sanitizeInput input n).
Proof.
  destruct (sanitize_parts input n) as [pre [mid [post [_ [Ht He]]]]].
  pose proof (slice0_length n input) as Hl.
  pose proof (f_equal String.length Ht) as Lt.
  pose proof (f_equal String.length He) as Le.
  rewrite append_length in Lt, Le.
  split; [lia|]. unfold sanitizeInput, JS.trim. split.
  - apply trimEnd_starts, trimStart_starts.
  - apply trimEnd_ends.
Qed.

(** X1. Whatever the input and the bound, the sanitised text has at most
    [maxLength] characters, is a contiguous part of the input, and neither
    starts nor ends with white space. *)
Theorem sanitizeInput_bounded_trimmed :
  forall (input : string) (maxLength : nat),
    (String.length (sanitizeInput input maxLength) <= maxLength)%nat /\
    (String.length (sanitizeInput input maxLength) <= String.length input)%nat /\
    infix (sanitizeInput input maxLength) input /\
    JS.starts_with_space (sanitizeInput input maxLength) = false /\
    ~ ends_with_space (sanitizeInput input maxLength).
Proof.
  intros input n.
  destruct (sanitize_facts input n) as [Hl [Hs He]].
  destruct (sanitize_parts input n) as [pre [mid [post [Ei [Et Em]]]]].
  assert (Hin : input = pre ++ sanitizeInput input n ++ mid ++ post).
  { rewrite <- (append_assoc _ mid post), <- Em.
    rewrite <- (append_assoc pre _ post), <- Et. exact Ei. }
  split; [exact Hl|]. split; [|split; [|split; assumption]].
  - pose proof (f_equal String.length Hin) as L.
    rewrite !append_length in L. lia.
  - exists pre, (mid ++ post). exact Hin.
Qed.

(** X2. Sanitising is idempotent: sanitising an already sanitised text with
    the same bound changes nothing. *)
Theorem sanitizeInput_idempotent :
  forall (input : string) (maxLength : nat),
    sanitizeInput (sanitizeInput input maxLength) maxLength
    = sanitizeInput input maxLength.
Proof.
  intros input n.
  destruct (sanitize_facts input n) as [Hl [Hs He]].
  unfold sanitizeInput at 1. rewrite (slice0_short _ _ Hl).
  unfold JS.trim. rewrite (trimStart_fixed _ Hs). now apply trimEnd_fixed.
Qed.

End Sanitize.

Section TopicsMore.

Lemma lower_char_idempotent (c : ascii) :
  JS.lower_char (JS.lower_char c) = JS.lower_char c.
Proof. destruct c as [[] [] [] [] [] [] [] []]; reflexivity. Qed.

Lemma toLowerCase_idempotent (s : string) :
  JS.toLowerCase (JS.toLowerCase s) = JS.toLowerCase s.
Proof.
  induction s as [|c s IH]; simpl; [reflexivity|].
  now rewrite lower_char_idempotent, IH.
Qed.

(** X3. Topic extraction ignores letter case: a message and its lower-cased
    form yield the same topics, and so do any two messages that differ only
    in case. *)
Theorem extractTopics_ignores_case :
  (forall msg, extractTopics (JS.toLowerCase msg) = extractTopics msg) /\
  (forall m1 m2, JS.toLowerCase m1 = JS.toLowerCase m2 ->
                 extractTopics m1 = extractTopics m2).
Proof.
  split.
  - intros msg. unfold extractTopics. now rewrite toLowerCase_idempotent.
  - intros m1 m2 E. unfold extractTopics. now rewrite E.
Qed.

(** A space-free needle that starts a text followed by white space lies
    within the part before the white space. *)
Lemma prefix_before_space (t w post : string) :
  no_space t = true -> bounded_right post ->
  prefix t (w ++ post) = prefix t w.
Proof.
  intros Ht Hb. revert t Ht. induction w as [|x w IH]; intros [|d t] Ht.
  - simpl. now destruct post.
  - simpl in *. apply andb_true_iff in Ht as [Hd _]. apply negb_true_iff in Hd.
    destruct Hb as [-> | Hs]; [reflexivity|].
    destruct post as [|e post]; [reflexivity|]. simpl in Hs. simpl.
    destruct (ascii_dec d e) as [->|]; [congruence | reflexivity].
  - reflexivity.
  - simpl in *. apply andb_true_iff in Ht as [_ Ht].
    destruct (ascii_dec d x); [now apply IH | reflexivity].
Qed.

Lemma includes_empty (t : string) : t <> "" -> JS.includes "" t = false.
Proof. destruct t; [congruence | reflexivity]. Qed.

(** Looking for a space-free needle word by word finds it exactly when it
    occurs in the text. *)
Lemma existsb_split (t s : string) :
  no_space t = true -> t <> "" ->
  existsb (fun w => JS.includes w t) (JS.split_ws s) = JS.includes s t.
Proof.
  intros Ht Hne. induction s as [|c s IH].
  - simpl. now rewrite orb_false_r.
  - change (JS.includes (String c s) t)
      with (prefix t (String c s) || JS.includes s t).
    rewrite <- IH. simpl JS.split_ws.
    destruct (JS.is_space c) eqn:Hc.
    + assert (Hp : prefix t (String c s) = false).
      { destruct t as [|d t]; [congruence|]. simpl in *.
        apply andb_true_iff in Ht as [Hd _]. apply negb_true_iff in Hd.
        destruct (ascii_dec d c) as [->|]; [congruence | reflexivity]. }
      rewrite Hp. simpl orb.
      destruct (JS.starts_with_space s); [reflexivity|].
      cbn [existsb]. now rewrite (includes_empty t Hne).
    + destruct (JS.split_ws s) as [|w0 ws0] eqn:E.
      * destruct (split_ws_cons s) as [? [? E']]. congruence.
      * destruct (split_ws_head _ _ _ E) as [post [Hs [_ Hb]]].
        cbn [existsb].
        change (JS.includes (String c w0) t)
          with (prefix t (String c w0) || JS.includes w0 t).
        rewrite Hs at 1.
        change (String c (w0 ++ post)) with (String c w0 ++ post).
        rewrite (prefix_before_space t (String c w0) post Ht Hb).
        now rewrite orb_assoc.
Qed.

Lemma commonTopics_space_free (topic : string) :
  In topic commonTopics -> no_space topic = true /\ topic <> "".
Proof.
  unfold commonTopics. simpl. intros H.
  repeat (destruct H as [<- | H]; [split; [reflexivity | discriminate]|]).
  contradiction.
Qed.

(** X4. Splitting the message into words does not matter: the extracted
    topics are exactly the lexicon entries that occur anywhere in the
    lower-cased message, in lexicon order. *)
Theorem extractTopics_by_occurrence :
  forall msg,
    extractTopics msg
    = filter (fun topic => JS.includes (JS.toLowerCase msg) topic) commonTopics.
Proof.
  intros msg. unfold extractTopics. apply filter_ext_in.
  intros topic Hin. destruct (commonTopics_space_free topic Hin) as [Hs Hne].
  now apply existsb_split.
Qed.

End TopicsMore.

Section WindowMore.

Local Open Scope list_scope.

Lemma order_newest_last (row : MemoryRow) (l : list MemoryRow) :
  (forall m, In m l -> created_at m < created_at row) ->
  order_created_at_desc (l ++ [row]) = row :: order_created_at_desc l.
Proof.
  unfold order_created_at_desc. rewrite fold_right_app. simpl.
  induction l as [|x l IH]; intros H; simpl; [reflexivity|].
  rewrite IH by (intros m Hm; apply H; now right). simpl.
  destruct (Z.leb_spec (created_at row) (created_at x)) as [Hle|_]; [|reflexivity].
  specialize (H x (or_introl eq_refl)). lia.
Qed.

Lemma firstn_firstn_le {A : Type} (n m : nat) (l : list A) :
  (n <= m)%nat -> firstn n (firstn m l) = firstn n l.
Proof. intros H. rewrite firstn_firstn. f_equal. lia. Qed.

Lemma recent_after_foreign_insert (t p : string) (rows : list MemoryRow)
    (row : MemoryRow) :
  scoped_to t p row = false ->
  recent_memories t p (rows ++ [row]) = recent_memories t p rows.
Proof.
  intros Hs. unfold recent_memories. rewrite filter_app. cbn [filter].
  now rewrite Hs, app_nil_r.
Qed.

Lemma recent_after_newer_insert (t p : string) (rows : list MemoryRow)
    (row : MemoryRow) :
  scoped_to t p row = true ->
  (forall m, In m rows -> scoped_to t p m = true ->
             created_at m < created_at row) ->
  recent_memories t p (rows ++ [row])
  = row :: firstn 9 (recent_memories t p rows).
Proof.
  intros Hs Hnew. unfold recent_memories. rewrite filter_app. cbn [filter].
  rewrite Hs, order_newest_last.
  - rewrite (firstn_cons 9). f_equal. symmetry. apply firstn_firstn_le. lia.
  - intros m Hm. apply filter_In in Hm as [Hin Hsc]. auto.
Qed.

(** X5. Recording a turn for another session or another personality leaves
    the window of this pair as it was; recording a turn of this pair that
    is newer than every turn of the pair puts it at the head of the next
    window and keeps the nine most recent before it. *)
Theorem recent_memories_after_insert :
  forall (t p : string) (rows : list MemoryRow) (row : MemoryRow),
    (scoped_to t p row = false ->
     recent_memories t p (rows ++ [row]) = recent_memories t p rows) /\
    (scoped_to t p row = true ->
     (forall m, In m rows -> scoped_to t p m = true ->
                created_at m < created_at row) ->
     recent_memories t p (rows ++ [row])
     = row :: firstn 9 (recent_memories t p rows)).
Proof.
  intros t p rows row. split.
  - apply recent_after_foreign_insert.
  - apply recent_after_newer_insert.
Qed.

Lemma recent_memories_after_insert_witness :
  recent_memories "s" "P1"
    (Sample.two_turns ++ [Sample.turn "s" "P1" "third" "three" 3])
  = Sample.turn "s" "P1" "third" "three" 3
      :: firstn 9 (recent_memories "s" "P1" Sample.two_turns).
Proof.
  refine (proj2 (recent_memories_after_insert "s" "P1" Sample.two_turns
                   (Sample.turn "s" "P1" "third" "three" 3)) eq_refl _).
  intros m [<- | [<- | []]] _; reflexivity.
Defined.

(** X6. Below the bound nothing is dropped: when at most ten rows match the
    pair, the window is a rearrangement of exactly the matching rows. *)
Theorem recent_memories_complete :
  forall (t p : string) (rows : list MemoryRow),
    (List.length (filter (scoped_to t p) rows) <= 10)%nat ->
    Permutation (recent_memories t p rows) (filter (scoped_to t p) rows) /\
    (forall m, In m rows -> scoped_to t p m = true ->
               In m (recent_memories t p rows)).
Proof.
  intros t p rows Hlen. unfold recent_memories.
  assert (E : firstn 10 (order_created_at_desc (filter (scoped_to t p) rows))
              = order_created_at_desc (filter (scoped_to t p) rows)).
  { apply firstn_all2. now rewrite (Permutation_length (order_perm _)). }
  rewrite E. split; [apply order_perm|].
  intros m Hin Hs. eapply Permutation_in; [symmetry; apply order_perm|].
  apply filter_In. auto.
Qed.

Lemma recent_memories_complete_witness :
  Permutation (recent_memories "s" "P1" Sample.two_turns)
    (filter (scoped_to "s" "P1") Sample.two_turns).
Proof.
  refine (proj1 (recent_memories_complete "s" "P1" Sample.two_turns _)).
  simpl. lia.
Defined.

End WindowMore.

(** * Further properties of the handler *)

(** Try each disjunct in turn. *)
Ltac pick_disjunct := repeat (first [left; reflexivity | right]).

(** Lay a response open down to its fields. *)
Ltac expose_response :=
  unfold success_response, error_response, json_response, createApiResponse,
    createApiError, generateRequestId;
  cbn [status body request_id timestamp success data error code details
       error_message reply reply_session_token personality pd_id pd_name].

Section Paths.

Lemma truthy_not_empty (s : string) : JS.truthy s = true -> s <> "".
Proof. destruct s; [discriminate | discriminate]. Qed.

Lemma or_else_same (s : string) : JS.or_else (Some s) s = s.
Proof. unfold JS.or_else. now destruct (JS.truthy s). Qed.

(** A memory insert is only ever attempted after a usable generation, with
    the row of the request and the reply that is returned. *)
Lemma handler_recorded (env : Env) (db : Store) (req : Request) (row : MemoryRow) :
  In (InsertMemory row) (trace (handler env db req)) ->
  exists body p text st raw,
    json req = Some body /\
    In p (artwork_personalities db) /\ id p = field (personality_id body) /\
    In (Generate text) (trace (handler env db req)) /\
    gemini env text = Responded st (Candidates (Some raw)) /\
    status_ok st = true /\ JS.trim raw <> "" /\
    row = memory_row env (effective_token env body) p
            (field (personality_id body)) (sanitized body) (JS.trim raw) /\
    response (handler env db req)
      = success_response env (effective_token env body) p (JS.trim raw).
Proof.
  run_handler;
    cbn [In]; intros H;
    repeat (destruct H as [H|H]; try discriminate); try contradiction;
    injection H as <-;
    match goal with
    | Hj : json _ = Some ?m,
      Hs : single (filter _ (artwork_personalities _)) = Some ?p,
      Hg : gemini _ ?text = Responded ?st (Candidates ?o),
      Hok : negb (status_ok ?st) = false,
      Hf : JS.falsy (option_map JS.trim ?o) = false |- _ =>
        destruct o as [raw|]; [|discriminate Hf];
        cbn [option_map JS.falsy field] in *;
        apply negb_false_iff in Hok, Hf;
        apply single_filter in Hs as [Hin Hid]; apply String.eqb_eq in Hid;
        exists m, p, text, st, raw;
        repeat (split; [first [reflexivity | assumption
                              | now apply truthy_not_empty | tauto]|]);
        reflexivity
    end.
Qed.

(** X7. Every response is either the bare "ok" of a preflight or an
    envelope carrying the request id and the time of the invocation, and
    then exactly one of two shapes: status 200, success, no error, a payload
    with a non-empty reply; or failure, no data, and an error whose code
    goes with the status (405 METHOD_NOT_ALLOWED, 400 INVALID_REQUEST,
    404 PERSONALITY_NOT_FOUND, 500 INTERNAL_ERROR). *)
Theorem response_envelope :
  forall (env : Env) (db : Store) (req : Request),
    (method req = "OPTIONS" /\
     response (handler env db req) = {| status := 200; body := Text "ok" |}) \/
    (method req <> "OPTIONS" /\
     exists api,
       body (response (handler env db req)) = Json api /\
       request_id api = random_request_id env /\
       timestamp api = now env /\
       ((status (response (handler env db req)) = 200 /\
         success api = true /\ error api = None /\
         exists payload, data api = Some payload /\ reply payload <> "") \/
        (success api = false /\ data api = None /\
         exists e,
           error api = Some e /\ details e = None /\
           In (status (response (handler env db req)), code e)
              [(405, "METHOD_NOT_ALLOWED"); (400, "INVALID_REQUEST");
               (404, "PERSONALITY_NOT_FOUND"); (500, "INTERNAL_ERROR")]))).
Proof.
  intros env db req. run_handler; expose_response;
    match goal with
    | Ho : (method _ =? "OPTIONS")%string = true |- _ =>
        left; apply String.eqb_eq in Ho; split; [exact Ho | reflexivity]
    | Ho : (method _ =? "OPTIONS")%string = false |- _ =>
        right; apply String.eqb_neq in Ho; split; [exact Ho|];
        eexists; split; [reflexivity|]; split; [apply or_else_same|];
        split; [reflexivity|];
        first
          [ right; split; [reflexivity|]; split; [reflexivity|];
            eexists; split; [reflexivity|]; split; [reflexivity|];
            cbn [In]; pick_disjunct
          | left; split; [reflexivity|]; split; [reflexivity|];
            split; [reflexivity|]; eexists; split; [reflexivity|];
            match goal with
            | Hf : JS.falsy (option_map JS.trim ?o) = false |- _ =>
                destruct o; [|discriminate Hf];
                cbn [option_map JS.falsy field] in *;
                apply negb_false_iff in Hf; now apply truthy_not_empty
            end ]
    end.
Qed.

(** X8. Only POST reaches the pipeline.  Any other verb leaves the store
    untouched and makes no call at all, whatever the body: OPTIONS is
    answered with the bare "ok" and status 200, every other verb with
    METHOD_NOT_ALLOWED and status 405. *)
Theorem other_verbs_do_nothing :
  forall (env : Env) (db : Store) (req : Request),
    method req <> "POST" ->
    trace (handler env db req) = [] /\
    final_store (handler env db req) = db /\
    (method req = "OPTIONS" ->
     response (handler env db req) = {| status := 200; body := Text "ok" |}) /\
    (method req <> "OPTIONS" ->
     is_error (response (handler env db req)) 405 "METHOD_NOT_ALLOWED").
Proof.
  intros env db req Hm. apply String.eqb_neq in Hm. unfold handler.
  destruct (String.eqb_spec (method req) "OPTIONS") as [Ho|Ho].
  - split; [reflexivity | split; [reflexivity | split; [reflexivity|]]].
    intros H. contradiction.
  - rewrite Hm. cbn [negb]. split; [reflexivity | split; [reflexivity | split]].
    + intros H. contradiction.
    + intros _. unfold is_error. expose_response. split; [reflexivity|].
      do 2 eexists. repeat split.
Qed.

Lemma other_verbs_do_nothing_witness :
  trace (handler Sample.env Sample.talked_store
           {| method := "DELETE"; json := None |}) = [] /\
  final_store (handler Sample.env Sample.talked_store
                 {| method := "DELETE"; json := None |}) = Sample.talked_store.
Proof.
  destruct (other_verbs_do_nothing Sample.env Sample.talked_store
              {| method := "DELETE"; json := None |}) as [Ht [Hs _]].
  - discriminate.
  - split; [exact Ht | exact Hs].
Defined.

(** X9. A POST whose body does not parse, or whose body is valid while a
    store variable is missing, is answered with INTERNAL_ERROR and status
    500 before any store access or generation call. *)
Theorem early_internal_errors :
  forall (env : Env) (db : Store) (req : Request),
    method req = "POST" ->
    json req = None \/
    (exists body, json req = Some body /\ valid body /\
                  (JS.falsy (SUPABASE_URL env) = true \/
                   JS.falsy (SUPABASE_ANON_KEY env) = true)) ->
    is_error (response (handler env db req)) 500 "INTERNAL_ERROR" /\
    trace (handler env db req) = [] /\
    final_store (handler env db req) = db.
Proof.
  intros env db req Hm Hcase.
  assert (Ho : (method req =? "OPTIONS")%string = false) by now rewrite Hm.
  assert (Hp : (method req =? "POST")%string = true) by now rewrite Hm.
  unfold_handler. rewrite Ho, Hp. cbn [negb].
  destruct Hcase as [Hj | [body [Hj [Hv Hc]]]].
  - rewrite Hj. cbn [fst snd store log]. unfold is_error. expose_response.
    split; [|split; reflexivity]. split; [reflexivity|]. do 2 eexists. repeat split.
  - unfold valid in Hv. rewrite Hj, Hv.
    assert (Hcfg : JS.falsy (SUPABASE_URL env) || JS.falsy (SUPABASE_ANON_KEY env)
                   = true).
    { apply orb_true_iff. exact Hc. }
    rewrite Hcfg. cbn [fst snd store log]. unfold is_error. expose_response.
    split; [|split; reflexivity]. split; [reflexivity|]. do 2 eexists. repeat split.
Qed.

Lemma early_internal_errors_witness :
  is_error (response (handler Sample.env Sample.empty_store
                        {| method := "POST"; json := None |}))
    500 "INTERNAL_ERROR" /\
  trace (handler Sample.env Sample.empty_store
           {| method := "POST"; json := None |}) = [].
Proof.
  destruct (early_internal_errors Sample.env Sample.empty_store
              {| method := "POST"; json := None |} eq_refl (or_introl eq_refl))
    as [He [Ht _]].
  split; [exact He | exact Ht].
Defined.

(** X10. A valid POST for a personality the lookup does not yield is
    answered with PERSONALITY_NOT_FOUND and status 404.  By then the session
    has been resolved, so a session row may have been created; nothing else
    happened: no memory was loaded, no generation call made, no memory row
    or session update written. *)
Theorem unknown_personality_404 :
  forall (env : Env) (db : Store) (req : Request) (body : MemoryEnhancedRequest),
    method req = "POST" -> json req = Some body -> valid body ->
    configured env ->
    select_personality_fails (faults env) = true \/
    single (filter (fun r => (id r =? field (personality_id body))%string)
              (artwork_personalities db)) = None ->
    is_error (response (handler env db req)) 404 "PERSONALITY_NOT_FOUND" /\
    (trace (handler env db req)
       = [SelectSession (effective_token env body);
          SelectPersonality (field (personality_id body))] /\
     user_sessions (final_store (handler env db req)) = user_sessions db \/
     trace (handler env db req)
       = [SelectSession (effective_token env body);
          InsertSession (new_session env (effective_token env body));
          SelectPersonality (field (personality_id body))] /\
     (user_sessions (final_store (handler env db req)) = user_sessions db \/
      user_sessions (final_store (handler env db req))
        = (user_sessions db ++ [new_session env (effective_token env body)])%list)) /\
    conversation_memory (final_store (handler env db req))
      = conversation_memory db.
Proof.
  unfold valid, configured, effective_token.
  intros env db req body Hm Hj Hv Hc Hcase.
  assert (Ho : (method req =? "OPTIONS")%string = false) by now rewrite Hm.
  assert (Hp : (method req =? "POST")%string = true) by now rewrite Hm.
  unfold_handler. rewrite Ho, Hp, Hj, Hv, Hc. cbn [negb]. reduce_world.
  repeat (branch; reduce_world);
    try (destruct Hcase as [Hcase|Hcase]; discriminate Hcase);
    (split; [unfold is_error; expose_response; split; [reflexivity|];
             do 2 eexists; repeat split
            | split; [|reflexivity]]);
    first [ left; split; reflexivity
          | right; split; [reflexivity|]; first [left; reflexivity | right; reflexivity] ].
Qed.

Lemma unknown_personality_404_witness :
  is_error (response (handler Sample.env Sample.empty_store
                        (Sample.post (Some "hi") (Some "P9") None)))
    404 "PERSONALITY_NOT_FOUND".
Proof.
  refine (proj1 (unknown_personality_404 Sample.env Sample.empty_store
                   (Sample.post (Some "hi") (Some "P9") None)
                   {| message := Some "hi"; personality_id := Some "P9";
                      session_token := None; conversation_id := None;
                      remember_context := None; conversation_style := None |}
                   eq_refl eq_refl eq_refl eq_refl (or_intror eq_refl))).
Defined.

Lemma usable_intro (st : Z) (o : option string) :
  negb (status_ok st) = false -> JS.falsy (option_map JS.trim o) = false ->
  usable (Responded st (Candidates o)).
Proof.
  intros Hs Hf. destruct o as [raw|]; [|discriminate Hf].
  cbn [option_map JS.falsy] in Hf. apply negb_false_iff in Hs, Hf.
  exists st, raw. repeat split; auto. now apply truthy_not_empty.
Qed.

(** X11. When the generation call is made and what comes back is not
    usable (the fetch rejects, the status is not 2xx, the body does not
    parse, or the first candidate has no text or only white space), the
    caller gets INTERNAL_ERROR with status 500 and the turn leaves no trace
    in the store: no memory insert and no session update is attempted, and
    the memory table is unchanged. *)
Theorem failed_generation_500 :
  forall (env : Env) (db : Store) (req : Request) (text : string),
    In (Generate text) (trace (handler env db req)) ->
    ~ usable (gemini env text) ->
    is_error (response (handler env db req)) 500 "INTERNAL_ERROR" /\
    (forall row, ~ In (InsertMemory row) (trace (handler env db req))) /\
    (forall t a n, ~ In (UpdateSession t a n) (trace (handler env db req))) /\
    conversation_memory (final_store (handler env db req))
      = conversation_memory db.
Proof.
  intros env db req text H Hbad. revert H.
  run_handler;
    cbn [In]; intros H;
    repeat (destruct H as [H|H]; try discriminate); try contradiction;
    injection H as <-;
    try (exfalso; apply Hbad;
         match goal with
         | Hg : gemini _ _ = Responded _ (Candidates _) |- _ => rewrite Hg
         end;
         now apply usable_intro);
    (split; [unfold is_error; expose_response; split; [reflexivity|];
             do 2 eexists; repeat split|]);
    (split; [intros row Hin; cbn [In] in Hin;
             repeat (destruct Hin as [Hin|Hin]; try discriminate); contradiction|]);
    (split; [intros t a n Hin; cbn [In] in Hin;
             repeat (destruct Hin as [Hin|Hin]; try discriminate); contradiction
            | reflexivity]).
Qed.

Lemma failed_generation_500_witness :
  is_error (response (handler SampleDown.env Sample.empty_store Sample.hello))
    500 "INTERNAL_ERROR" /\
  conversation_memory
    (final_store (handler SampleDown.env Sample.empty_store Sample.hello)) = [].
Proof.
  destruct (failed_generation_500 SampleDown.env Sample.empty_store Sample.hello
              (composed_prompt None (Some []) "Hello, how are you?"))
    as [He [_ [_ Hm]]].
  - vm_compute. tauto.
  - intros [st [raw [E _]]]. discriminate E.
  - split; [exact He | exact Hm].
Defined.

Lemma handler_success_recorded (env : Env) (db : Store) (req : Request)
    (answer : string) :
  succeeds_with (response (handler env db req)) answer ->
  exists row, In (InsertMemory row) (trace (handler env db req)).
Proof.
  unfold succeeds_with. run_handler; expose_response;
    intros [Hst [api [payload [Hb [Hs _]]]]];
    try discriminate Hst; try discriminate Hb;
    try (injection Hb as <-; discriminate Hs);
    eexists; cbn [In]; pick_disjunct.
Qed.

Lemma handler_update_recorded (env : Env) (db : Store) (req : Request)
    (t : string) (a n : Z) :
  In (UpdateSession t a n) (trace (handler env db req)) ->
  exists row, In (InsertMemory row) (trace (handler env db req)).
Proof.
  run_handler; cbn [In]; intros H;
    repeat (destruct H as [H|H]; try discriminate); try contradiction;
    eexists; pick_disjunct.
Qed.

Lemma success_response_succeeds (env : Env) (t : string) (p : Personality)
    (answer : string) :
  succeeds_with (success_response env t p answer) answer.
Proof.
  unfold succeeds_with. expose_response. split; [reflexivity|].
  do 2 eexists. repeat split.
Qed.

(** X12. The outcome of an invocation is all or nothing: the response is a
    success exactly when a memory insert was attempted, exactly when a
    session update was attempted, and exactly when a generation call was
    made whose result is usable. *)
Theorem success_iff_recorded :
  forall (env : Env) (db : Store) (req : Request),
    ((exists answer, succeeds_with (response (handler env db req)) answer) <->
     (exists row, In (InsertMemory row) (trace (handler env db req)))) /\
    ((exists row, In (InsertMemory row) (trace (handler env db req))) <->
     (exists t a n, In (UpdateSession t a n) (trace (handler env db req)))) /\
    ((exists row, In (InsertMemory row) (trace (handler env db req))) <->
     (exists text, In (Generate text) (trace (handler env db req)) /\
                   usable (gemini env text))).
Proof.
  intros env db req.
  assert (Hgen : (exists row, In (InsertMemory row) (trace (handler env db req))) ->
                 exists text st raw,
                   In (Generate text) (trace (handler env db req)) /\
                   gemini env text = Responded st (Candidates (Some raw)) /\
                   status_ok st = true /\ JS.trim raw <> "").
  { intros [row H].
    destruct (handler_recorded env db req row H)
      as [b [p [text [st [raw [_ [_ [_ [Hg [He [Hs [Ht _]]]]]]]]]]]].
    exists text, st, raw. auto. }
  split; [|split]; split.
  - intros [answer H]. eapply handler_success_recorded; eauto.
  - intros [row H].
    destruct (handler_recorded env db req row H)
      as [b [p [text [st [raw [_ [_ [_ [_ [_ [_ [_ [_ ->]]]]]]]]]]]]].
    eexists. apply success_response_succeeds.
  - intros H. destruct (Hgen H) as [text [st [raw [Hg [He [Hs Ht]]]]]].
    destruct (handler_after_generation env db req text st raw Hg He Hs Ht)
      as [b [p [session [_ [_ [_ [Hu _]]]]]]].
    eauto.
  - intros [t [a [n H]]]. eapply handler_update_recorded; eauto.
  - intros H. destruct (Hgen H) as [text [st [raw [Hg [He [Hs Ht]]]]]].
    exists text. split; [exact Hg|]. exists st, raw. auto.
  - intros [text [Hg [st [raw [He [Hs Ht]]]]]].
    destruct (handler_after_generation env db req text st raw Hg He Hs Ht)
      as [b [p [session [_ [_ [Hi _]]]]]].
    eauto.
Qed.

(** X13. A memory row the handler inserts is the turn of the request: its
    session token is the one the request works with, its personality the
    requested one, its user message the sanitised message, its topics those
    extracted from that message, its tone "engaged", and its reply is not
    empty and is the reply the caller receives as a success. *)
Theorem recorded_row_is_the_turn :
  forall (env : Env) (db : Store) (req : Request) (row : MemoryRow),
    In (InsertMemory row) (trace (handler env db req)) ->
    exists body,
      json req = Some body /\
      cm_session_token row
        = JS.or_else (session_token body) (random_session_token env) /\
      cm_personality_id row = field (personality_id body) /\
      user_message row = sanitizeInput (field (message body)) 5000 /\
      topics_discussed row = extractTopics (user_message row) /\
      emotional_tone row = "engaged" /\
      created_at row = now env /\
      ai_response row <> "" /\
      succeeds_with (response (handler env db req)) (ai_response row).
Proof.
  intros env db req row H.
  destruct (handler_recorded env db req row H)
    as [b [p [text [st [raw [Hj [_ [_ [_ [_ [_ [Ht [-> ->]]]]]]]]]]]]].
  exists b. cbn [memory_row cm_session_token cm_personality_id user_message
                 topics_discussed emotional_tone created_at ai_response].
  repeat (split; [first [exact Hj | reflexivity | exact Ht]|]).
  apply success_response_succeeds.
Qed.

Lemma recorded_row_is_the_turn_witness :
  exists body,
    json Sample.hello = Some body /\
    user_message
      (memory_row Sample.env "session_1000_abcdefghi" Sample.P1 "P1"
         "Hello, how are you?" "I'm doing well, thank you!")
    = sanitizeInput (field (message body)) 5000.
Proof.
  destruct (recorded_row_is_the_turn Sample.env Sample.empty_store Sample.hello
              (memory_row Sample.env "session_1000_abcdefghi" Sample.P1 "P1"
                 "Hello, how are you?" "I'm doing well, thank you!"))
    as [body [Hj [_ [_ [Hu _]]]]].
  - vm_compute. tauto.
  - exists body. split; [exact Hj | exact Hu].
Defined.

Lemma touch_first_visit (t : string) (a n : Z) (s : UserSession) :
  first_visit (touch t a n s) = first_visit s.
Proof. unfold touch. destruct (has_token t s); reflexivity. Qed.

Lemma touch_first_visits (t : string) (a n : Z) (l : list UserSession) :
  map first_visit (map (touch t a n) l) = map first_visit l.
Proof. rewrite map_map. apply map_ext. apply touch_first_visit. Qed.

(** What an invocation can do to the memory table: nothing, or append the
    one row it tried to insert. *)
Lemma handler_memory_cases (env : Env) (db : Store) (req : Request) :
  conversation_memory (final_store (handler env db req)) = conversation_memory db \/
  exists row,
    In (InsertMemory row) (trace (handler env db req)) /\
    conversation_memory (final_store (handler env db req))
      = (conversation_memory db ++ [row])%list.
Proof.
  run_handler;
    first [ left; reflexivity
          | right; eexists; split; [|reflexivity]; cbn [In]; pick_disjunct ].
Qed.

(** X14. The tables only grow.  Whatever fails, an invocation never writes
    the personality table, never changes or removes a memory row and adds
    at most one at the end, and never removes or renames a session or
    changes its first visit, adding at most one session at the end. *)
Theorem tables_only_grow :
  forall (env : Env) (db : Store) (req : Request),
    artwork_personalities (final_store (handler env db req))
      = artwork_personalities db /\
    (exists added,
        conversation_memory (final_store (handler env db req))
          = (conversation_memory db ++ added)%list /\
        (List.length added <= 1)%nat) /\
    (exists created,
        map us_session_token (user_sessions (final_store (handler env db req)))
          = (map us_session_token (user_sessions db) ++ map us_session_token created)%list /\
        map first_visit (user_sessions (final_store (handler env db req)))
          = (map first_visit (user_sessions db) ++ map first_visit created)%list /\
        (List.length created <= 1)%nat).
Proof.
  intros env db req. split; [|split].
  - run_handler; reflexivity.
  - destruct (handler_memory_cases env db req) as [E | [row [_ E]]].
    + exists []. rewrite app_nil_r. split; [exact E | simpl; lia].
    + exists [row]. split; [exact E | simpl; lia].
  - run_handler;
      rewrite ?touch_tokens, ?touch_first_visits;
      first
        [ exists []; cbn [map]; rewrite !app_nil_r;
          split; [reflexivity|]; split; [reflexivity|]; simpl; lia
        | eexists [_]; rewrite ?map_app; cbn [map];
          split; [reflexivity|]; split; [reflexivity|]; simpl; lia ].
Qed.

(** X15. The calls of one invocation follow one fixed order, each made at
    most once: select session, insert session, select personality, select
    memory, generate, insert memory, update session.  In particular there
    is at most one generation call, and no store access between it and the
    two writes that follow it. *)
Theorem calls_in_fixed_order :
  forall (env : Env) (db : Store) (req : Request),
    StronglySorted lt (map event_rank (trace (handler env db req))) /\
    (List.length (filter is_generation (trace (handler env db req))) <= 1)%nat /\
    (List.length (trace (handler env db req)) <= 7)%nat.
Proof.
  intros env db req.
  run_handler; cbn [map event_rank filter is_generation List.length];
    (split; [repeat constructor | split; lia]).
Qed.

(** X16. A success response echoes the session token the invocation worked
    with, which is the caller's token whenever the caller sent a non-empty
    one and the generated token otherwise, and names the personality that
    was requested. *)
Theorem success_echoes_token :
  forall (env : Env) (db : Store) (req : Request) (answer : string),
    succeeds_with (response (handler env db req)) answer ->
    exists body p,
      json req = Some body /\
      In p (artwork_personalities db) /\
      id p = field (personality_id body) /\
      response (handler env db req)
        = success_response env
            (JS.or_else (session_token body) (random_session_token env)) p answer /\
      (forall t, session_token body = Some t -> t <> "" ->
                 JS.or_else (session_token body) (random_session_token env) = t) /\
      (JS.falsy (session_token body) = true ->
       JS.or_else (session_token body) (random_session_token env)
       = random_session_token env).
Proof.
  intros env db req answer Hs.
  destruct (handler_success_recorded env db req answer Hs) as [row Hrow].
  destruct (handler_recorded env db req row Hrow)
    as [b [p [text [st [raw [Hj [Hp [Hid [_ [_ [_ [_ [_ Hr]]]]]]]]]]]]].
  exists b, p. split; [exact Hj|]. split; [exact Hp|]. split; [exact Hid|].
  assert (Ha : answer = JS.trim raw).
  { rewrite Hr in Hs. destruct Hs as [_ [api [payload [Hb [_ [_ [Hd Hreply]]]]]]].
    unfold success_response, json_response, createApiResponse in Hb.
    cbn [body] in Hb. injection Hb as <-. cbn [data] in Hd.
    injection Hd as <-. cbn [reply] in Hreply. congruence. }
  split; [rewrite Ha; exact Hr|]. split.
  - intros t -> Ht. unfold JS.or_else. now rewrite trim_truthy.
  - unfold JS.falsy, JS.or_else. destruct (session_token b) as [t|]; [|reflexivity].
    intros H. apply negb_true_iff in H. now rewrite H.
Qed.

Lemma success_echoes_token_witness :
  exists body p,
    json (Sample.post (Some "hi") (Some "P1") (Some "s")) = Some body /\
    response (handler Sample.env Sample.talked_store
                (Sample.post (Some "hi") (Some "P1") (Some "s")))
      = success_response Sample.env
          (JS.or_else (session_token body) (random_session_token Sample.env)) p
          "I'm doing well, thank you!".
Proof.
  destruct (success_echoes_token Sample.env Sample.talked_store
              (Sample.post (Some "hi") (Some "P1") (Some "s"))
              "I'm doing well, thank you!")
    as [body [p [Hj [_ [_ [Hr _]]]]]].
  - split; [reflexivity|]. do 2 eexists. repeat split.
  - exists body, p. split; [exact Hj | exact Hr].
Defined.

End Paths.

Section Sessions.

Local Open Scope list_scope.

(** X17. Get-or-create on a token that has no session: with the lookup and
    the insert not failing, the first resolution inserts exactly one row
    for the token, with counter 1 and first visit and last activity set to
    the time of the invocation, and a second resolution returns that row
    without writing; tokens remain a key. *)
Theorem resolve_unknown_token :
  forall (env : Env) (db : Store) (lg : list Event) (t : string),
    select_session_fails (faults env) = false ->
    insert_session_fails (faults env) = false ->
    token_is_key db ->
    ~ In t (map us_session_token (user_sessions db)) ->
    resolve_twice env t {| store := db; log := lg |}
    = (Value (Some (new_session env t)), Value (Some (new_session env t)),
       {| store := with_session db (new_session env t);
          log := lg ++ [SelectSession t; InsertSession (new_session env t);
                        SelectSession t] |}) /\
    token_is_key (with_session db (new_session env t)) /\
    new_session env t
    = {| us_session_token := t; first_visit := now env;
         last_active := now env; total_conversations := 1 |}.
Proof.
  intros env db lg t Hf Hi Hkey Habs.
  assert (Hnone : single (filter (has_token t) (user_sessions db)) = None).
  { now rewrite (no_session t _ Habs). }
  pose proof (created_session_found env db t Hkey Hnone) as Hnew.
  apply single_some in Hnew.
  split; [|split; [|reflexivity]].
  - unfold resolve_twice.
    rewrite (resolve_created env t {| store := db; log := lg |} Hf Hi Hnone).
    cbn [store log].
    rewrite (resolve_found env t (new_session env t)
               {| store := with_session db (new_session env t);
                  log := lg ++ [SelectSession t;
                                InsertSession (new_session env t)] |} Hf Hnew).
    cbn [store log]. now rewrite <- app_assoc.
  - unfold token_is_key. cbn [with_session user_sessions].
    rewrite map_app. apply NoDup_app; [exact Hkey | repeat constructor; auto|].
    intros x Hx [<-|[]]. contradiction.
Qed.

Lemma resolve_unknown_token_witness :
  token_is_key (with_session Sample.empty_store (new_session Sample.env "fresh")).
Proof.
  refine (proj1 (proj2 (resolve_unknown_token Sample.env Sample.empty_store []
                          "fresh" eq_refl eq_refl _ _))).
  - constructor.
  - simpl. tauto.
Defined.





End Sessions.

Section Continuity.

Local Open Scope list_scope.

Lemma scoped_to_refl (t p : string) (row : MemoryRow) :
  cm_session_token row = t -> cm_personality_id row = p ->
  scoped_to t p row = true.
Proof. intros <- <-. unfold scoped_to. now rewrite !String.eqb_refl. Qed.

Lemma scoped_to_other (t p t' p' : string) (row : MemoryRow) :
  cm_session_token row = t -> cm_personality_id row = p ->
  t' <> t \/ p' <> p -> scoped_to t' p' row = false.
Proof.
  intros <- <- H. unfold scoped_to. apply andb_false_iff.
  destruct H as [H|H]; [left | right]; apply String.eqb_neq; congruence.
Qed.

(** X20. An invocation never changes what another conversation sees: for
    every session token and personality other than the pair the request
    works with, the memory window after the invocation is the window
    before it, whatever the invocation did. *)
Theorem other_windows_untouched :
  forall (env : Env) (db : Store) (req : Request)
         (body : MemoryEnhancedRequest) (t' p' : string),
    json req = Some body ->
    t' <> effective_token env body \/ p' <> field (personality_id body) ->
    recent_memories t' p' (conversation_memory (final_store (handler env db req)))
    = recent_memories t' p' (conversation_memory db).
Proof.
  intros env db req body t' p' Hj Hother.
  destruct (handler_memory_cases env db req) as [-> | [row [Hin ->]]];
    [reflexivity|].
  destruct (handler_inserts env db req row Hin) as [b [p [a [Hb ->]]]].
  assert (b = body) as -> by congruence.
  apply recent_after_foreign_insert.
  now apply (scoped_to_other (effective_token env body)
               (field (personality_id body))).
Qed.

Lemma other_windows_untouched_witness :
  recent_memories "s" "P1"
    (conversation_memory
       (final_store (handler Sample.env Sample.talked_store Sample.hello)))
  = recent_memories "s" "P1" (conversation_memory Sample.talked_store).
Proof.
  refine (other_windows_untouched Sample.env Sample.talked_store Sample.hello
            {| message := Some "Hello, how are you?"; personality_id := Some "P1";
               session_token := None; conversation_id := None;
               remember_context := None; conversation_style := None |}
            "s" "P1" eq_refl _).
  left. discriminate.
Defined.

(** X21. What is recorded is what is recalled: when the generation is
    usable and the memory insert does not fail, and the invocation is later
    than every turn already stored for the pair, the window loaded next for
    the same session token and personality starts with the turn just
    recorded (the sanitised message and the returned reply), followed by
    the nine most recent turns of the window before. *)
Theorem recorded_turn_heads_next_window :
  forall (env : Env) (db : Store) (req : Request)
         (body : MemoryEnhancedRequest) (text : string),
    json req = Some body ->
    In (Generate text) (trace (handler env db req)) ->
    usable (gemini env text) ->
    insert_memory_fails (faults env) = false ->
    (forall m, In m (conversation_memory db) ->
               scoped_to (effective_token env body) (field (personality_id body)) m
               = true ->
               created_at m < now env) ->
    exists row,
      recent_memories (effective_token env body) (field (personality_id body))
        (conversation_memory (final_store (handler env db req)))
      = row :: firstn 9
                 (recent_memories (effective_token env body)
                    (field (personality_id body)) (conversation_memory db)) /\
      user_message row = sanitized body /\
      succeeds_with (response (handler env db req)) (ai_response row).
Proof.
  intros env db req body text Hj Hgen [st [raw [Hg [Hst Htr]]]] Hok Hnew.
  destruct (handler_after_generation env db req text st raw Hgen Hg Hst Htr)
    as [b [p [session [Hb [Hr [_ [_ Hmem]]]]]]].
  assert (b = body) as -> by congruence.
  rewrite Hok in Hmem. rewrite Hmem, Hr.
  exists (memory_row env (effective_token env body) p
            (field (personality_id body)) (sanitized body) (JS.trim raw)).
  split; [|split; [reflexivity|]].
  - apply recent_after_newer_insert.
    + now apply scoped_to_refl.
    + exact Hnew.
  - apply success_response_succeeds.
Qed.

Lemma recorded_turn_heads_next_window_witness :
  exists row,
    recent_memories "s" "P1"
      (conversation_memory
         (final_store (handler Sample.env Sample.talked_store
                         (Sample.post (Some "hi") (Some "P1") (Some "s")))))
    = row :: firstn 9 (recent_memories "s" "P1" Sample.two_turns) /\
    user_message row = "hi".
Proof.
  destruct (recorded_turn_heads_next_window Sample.env Sample.talked_store
              (Sample.post (Some "hi") (Some "P1") (Some "s"))
              {| message := Some "hi"; personality_id := Some "P1";
                 session_token := Some "s"; conversation_id := None;
                 remember_context := None; conversation_style := None |}
              (composed_prompt None
                 (Some (recent_memories "s" "P1" Sample.two_turns)) "hi")
              eq_refl)
    as [row [Hw [Hu _]]].
  - vm_compute. tauto.
  - exists 200, "I'm doing well, thank you!".
    split; [reflexivity | split; [reflexivity | vm_compute; discriminate]].
  - reflexivity.
  - intros m [<- | [<- | []]] _; reflexivity.
  - exists row. split; [exact Hw | exact Hu].
Defined.

End Continuity.

Section StatusCodes.

Lemma negb_eqb_post (m : string) (b : bool) :
  negb (m =? "POST")%string = b -> if b then m <> "POST" else m = "POST".
Proof.
  destruct (String.eqb_spec m "POST"); simpl; intros <-; assumption.
Qed.

(** X22. What the client errors mean.  The status is 405 exactly when the
    verb is neither POST nor OPTIONS; it is 400 exactly when a POST body
    parses and lacks a non-empty [message] or [personality_id]; it is 404
    exactly when a valid POST reaches a configured store and the lookup of
    the personality yields nothing. *)
Theorem client_errors_characterised :
  forall (env : Env) (db : Store) (req : Request),
    (status (response (handler env db req)) = 405 <->
     method req <> "POST" /\ method req <> "OPTIONS") /\
    (status (response (handler env db req)) = 400 <->
     method req = "POST" /\
     exists body, json req = Some body /\
                  (missing (message body) \/ missing (personality_id body))) /\
    (status (response (handler env db req)) = 404 <->
     method req = "POST" /\
     exists body,
       json req = Some body /\ valid body /\ configured env /\
       (select_personality_fails (faults env) = true \/
        single (filter (fun r => (id r =? field (personality_id body))%string)
                  (artwork_personalities db)) = None)).
Proof.
  intros env db req. unfold valid, configured.
  run_handler; expose_response;
    repeat match goal with
           | H : (method _ =? "OPTIONS")%string = true |- _ =>
               apply String.eqb_eq in H
           | H : (method _ =? "OPTIONS")%string = false |- _ =>
               apply String.eqb_neq in H
           | H : negb (method _ =? "POST")%string = _ |- _ =>
               apply negb_eqb_post in H; cbn iota in H
           end;
    (split; [|split]);
    (split;
     [ intros H; try discriminate H
     | intros H; try reflexivity; exfalso ]);
    (* the right-hand side holds in this leaf *)
    try (split; [assumption | assumption]);
    try (split; [assumption|]; eexists; split; [reflexivity|];
         first
           [ match goal with
             | Hv : JS.falsy _ || JS.falsy _ = true |- missing _ \/ missing _ =>
                 apply orb_true_iff in Hv; rewrite !falsy_missing in Hv; exact Hv
             end
           | split; [first [assumption | reflexivity]|];
             split; [first [assumption | reflexivity]|];
             first [left; reflexivity | left; assumption
                   | right; assumption | right; reflexivity] ]);
    (* the right-hand side fails in this leaf *)
    try match goal with
        | H : _ <> _ /\ _ <> _ |- _ => destruct H; congruence
        | H : _ /\ (exists _, _) |- _ =>
            destruct H as [H1 [body [Hj Hrest]]];
            first
              [ congruence
              | injection Hj as <-;
                first
                  [ rewrite <- !falsy_missing, <- orb_true_iff in Hrest;
                    congruence
                  | destruct Hrest as [Hv [Hc Hl]];
                    first [congruence | destruct Hl; congruence] ] ]
        end.
Qed.

End StatusCodes.

Section PromptMore.

Local Open Scope list_scope.

(** X23. Nothing in the window is left out of the prompt: for every entry
    of a loaded window, its "User: ... / AI: ..." pair occurs in the
    composed prompt, with the stored message and reply verbatim. *)
Theorem window_entries_reach_prompt :
  forall (pd : option PersonalityData) (msg : string)
         (w : list MemoryRow) (m : MemoryRow),
    In m w ->
    infix (render_memory m) (composed_prompt pd (Some w) msg) /\
    infix (user_message m) (composed_prompt pd (Some w) msg) /\
    infix (ai_response m) (composed_prompt pd (Some w) msg).
Proof.
  intros pd msg w m Hin.
  assert (Hw : w <> []) by (intros ->; contradiction).
  apply in_split in Hin as [l1 [l2 ->]].
  assert (Hr : infix (render_memory m)
                 (composed_prompt pd (Some (l1 ++ m :: l2)) msg)).
  { rewrite (composed_with_block pd _ msg Hw). unfold previous_block, transcript.
    rewrite map_app. cbn [map].
    destruct (join_middle (JS.LF ++ JS.LF)%string (render_memory m)
                (map render_memory l1) (map render_memory l2))
      as [pre [post [E _]]].
    rewrite E.
    exists (persona_of pd ++ JS.LF ++ JS.LF ++ previous_header ++ JS.LF ++ pre)%string,
           (post ++ JS.LF ++ JS.LF ++ JS.LF ++ JS.LF ++ closing_instruction
              ++ user_cue msg)%string.
    now rewrite !append_assoc. }
  split; [exact Hr | split].
  - destruct Hr as [pre [post E]]. rewrite E. unfold render_memory.
    exists (pre ++ "User: ")%string,
           (JS.LF ++ "AI: " ++ ai_response m ++ post)%string.
    now rewrite !append_assoc.
  - destruct Hr as [pre [post E]]. rewrite E. unfold render_memory.
    exists (pre ++ "User: " ++ user_message m ++ JS.LF ++ "AI: ")%string, post.
    now rewrite !append_assoc.
Qed.

Lemma window_entries_reach_prompt_witness :
  infix "first"
    (composed_prompt None (Some (recent_memories "s" "P1" Sample.two_turns)) "hi").
Proof.
  refine (proj1 (proj2 (window_entries_reach_prompt None "hi"
                          (recent_memories "s" "P1" Sample.two_turns)
                          (Sample.turn "s" "P1" "first" "one" 1) _))).
  simpl. tauto.
Defined.


End PromptMore.

Section MissingKey.

(** X24. A valid POST that reaches a known personality while the backend
    key is missing is answered with INTERNAL_ERROR and status 500 after the
    store reads: no generation call is made and no memory row or session
    update is written, though a session row may have been created. *)
Theorem missing_key_500 :
  forall (env : Env) (db : Store) (req : Request)
         (body : MemoryEnhancedRequest) (p : Personality),
    method req = "POST" -> json req = Some body -> valid body ->
    configured env -> serves env db (field (personality_id body)) p ->
    JS.falsy (GEMINI_API_KEY env) = true ->
    is_error (response (handler env db req)) 500 "INTERNAL_ERROR" /\
    filter is_generation (trace (handler env db req)) = [] /\
    In (SelectMemory (effective_token env body) (field (personality_id body)))
       (trace (handler env db req)) /\
    (forall row, ~ In (InsertMemory row) (trace (handler env db req))) /\
    (forall t a n, ~ In (UpdateSession t a n) (trace (handler env db req))) /\
    conversation_memory (final_store (handler env db req))
      = conversation_memory db.
Proof.
  unfold valid, configured, serves, effective_token.
  intros env db req body p Hm Hj Hv Hc [Hpf Hp] Hk.
  assert (Ho : (method req =? "OPTIONS")%string = false) by now rewrite Hm.
  assert (Hpost : (method req =? "POST")%string = true) by now rewrite Hm.
  unfold_handler. rewrite Ho, Hpost, Hj, Hv, Hc, Hpf, Hk.
  cbn [negb]. reduce_world.
  repeat (branch; reduce_world);
    try discriminate Hp;
    (split; [unfold is_error; expose_response; split; [reflexivity|];
             do 2 eexists; repeat split|]);
    (split; [reflexivity|]);
    (split; [cbn [In]; tauto|]);
    (split; [intros row Hin; cbn [In] in Hin;
             repeat (destruct Hin as [Hin|Hin]; try discriminate); contradiction|]);
    (split; [intros t a n Hin; cbn [In] in Hin;
             repeat (destruct Hin as [Hin|Hin]; try discriminate); contradiction
            | reflexivity]).
Qed.

End MissingKey.

Section MoreWitnesses.

Lemma missing_key_500_witness :
  is_error (response (handler SampleNoKey.env Sample.empty_store Sample.hello))
    500 "INTERNAL_ERROR" /\
  filter is_generation
    (trace (handler SampleNoKey.env Sample.empty_store Sample.hello)) = [].
Proof.
  destruct (missing_key_500 SampleNoKey.env Sample.empty_store Sample.hello
              {| message := Some "Hello, how are you?"; personality_id := Some "P1";
                 session_token := None; conversation_id := None;
                 remember_context := None; conversation_style := None |}
              Sample.P1 eq_refl eq_refl eq_refl eq_refl
              (conj eq_refl eq_refl) eq_refl)
    as [He [Hg _]].
  split; [exact He | exact Hg].
Defined.


End MoreWitnesses.
